(** * Program-detail aggregation endpoint: api/clinical-programs.ts

    A shallow embedding of the serverless handler and of its helpers
    ([firstAttachmentUrl], [getQuery], [escapeFormulaString], the overview
    segmentation), followed by the properties of the endpoint.

    Conventions.
    - A JavaScript string is a [string]; each [ascii] stands for one code
      unit in the range 0..255.
    - A JavaScript value is a [JsValue]; numbers are integers ([Z]).
    - The handler runs in a small monad that threads the log of requests
      sent to the record store and the console, and that can throw. *)

From Stdlib Require Import Bool Arith ZArith Lia List Ascii String.
From Stdlib Require Import Sorted Permutation.
From Stdlib Require Import DecimalString.
Import ListNotations.

Local Open Scope string_scope.
Local Open Scope list_scope.

(* ===================================================================== *)
(** ** JavaScript values and strings                                      *)
(* ===================================================================== *)

Module Js.

#[warnings="-register-all"]
Inductive JsValue : Type :=
| JsUndefined
| JsNull
| JsBool (b : bool)
| JsNumber (z : Z)
| JsString (s : string)
| JsArray (l : list JsValue)
| JsObject (props : list (string * JsValue)).

Definition isEmptyString (s : string) : bool :=
  match s with EmptyString => true | String _ _ => false end.

(** ToBoolean. *)
Definition truthy (v : JsValue) : bool :=
  match v with
  | JsUndefined | JsNull => false
  | JsBool b => b
  | JsNumber z => negb (Z.eqb z 0)
  | JsString s => negb (isEmptyString s)
  | JsArray _ | JsObject _ => true
  end.

(** [a || b]. *)
Definition or (a b : JsValue) : JsValue := if truthy a then a else b.

(** Own-property lookup in a plain object, [o[k]]: the first binding of
    [k], [undefined] when there is none. *)
Fixpoint lookup (k : string) (props : list (string * JsValue)) : JsValue :=
  match props with
  | [] => JsUndefined
  | (k', v) :: rest => if String.eqb k k' then v else lookup k rest
  end.

(** [v?.k] for a property [k] that only a plain object can hold:
    [undefined] on [null] and [undefined], and on a primitive or an array,
    which have no property of that name. *)
Definition prop (k : string) (v : JsValue) : JsValue :=
  match v with
  | JsObject props => lookup k props
  | _ => JsUndefined
  end.

(** [v?.url]. *)
Definition optUrl (v : JsValue) : JsValue := prop "url" v.

(** [typeof v === 'string' ? v : undefined]. *)
Definition stringOrUndefined (v : JsValue) : JsValue :=
  match v with
  | JsString _ => v
  | _ => JsUndefined
  end.

Definition nl : ascii := "010"%char.
Definition cr : ascii := "013"%char.
Definition quote : ascii := "'"%char.

(** White space and line terminators among the code units 0..255: the
    characters removed by [String.prototype.trim] and matched by [\s]. *)
Definition isWhiteSpace (c : ascii) : bool :=
  let n := nat_of_ascii c in
  (((9 <=? n) && (n <=? 13)) || (n =? 32) || (n =? 160))%nat.

Fixpoint trimStart (s : string) : string :=
  match s with
  | EmptyString => EmptyString
  | String c s' => if isWhiteSpace c then trimStart s' else s
  end.

Fixpoint trimEnd (s : string) : string :=
  match s with
  | EmptyString => EmptyString
  | String c s' =>
      let t := trimEnd s' in
      if isWhiteSpace c && isEmptyString t then EmptyString else String c t
  end.

(** [s.trim()]. *)
Definition trim (s : string) : string := trimEnd (trimStart s).

End Js.

(* ===================================================================== *)
(** ** Regular expressions and [String.prototype.split]                   *)
(* ===================================================================== *)

Module Regex.
Import Js.

Inductive atom : Type :=
| Lit (c : ascii)          (* a literal character *)
| WhiteSpace.              (* \s *)

Inductive regex : Type :=
| One (a : atom)
| Star (a : atom)          (* greedy a* *)
| Seq (r1 r2 : regex)
| Alt (r1 r2 : regex).     (* r1|r2, left alternative first *)

Definition atomMatches (a : atom) (c : ascii) : bool :=
  match a with
  | Lit c' => Ascii.eqb c c'
  | WhiteSpace => isWhiteSpace c
  end.

(** Greedy star with backtracking: take one more character when possible
    and fall back to the continuation [k] when the rest cannot match. *)
Fixpoint starMatch (a : atom) (s : string) (k : string -> option string)
  : option string :=
  match s with
  | EmptyString => k s
  | String c s' =>
      if atomMatches a c then
        match starMatch a s' k with
        | Some rest => Some rest
        | None => k s
        end
      else k s
  end.

(** Backtracking matcher in continuation-passing style: [rmatch r s k]
    matches [r] at the start of [s] and hands the remaining input to [k]. *)
Fixpoint rmatch (r : regex) (s : string) (k : string -> option string)
  : option string :=
  match r with
  | One a =>
      match s with
      | EmptyString => None
      | String c s' => if atomMatches a c then k s' else None
      end
  | Star a => starMatch a s k
  | Seq r1 r2 => rmatch r1 s (fun s1 => rmatch r2 s1 k)
  | Alt r1 r2 =>
      match rmatch r1 s k with
      | Some rest => Some rest
      | None => rmatch r2 s k
      end
  end.

(** The input left after a match anchored at the start of [s]. *)
Definition matchAt (r : regex) (s : string) : option string :=
  rmatch r s Some.

(** The loop of [split]: [piece] is the text between the end of the last
    separator and the current position, [skip] counts the characters of
    the separator found earlier that are still to be passed. *)
Fixpoint splitFrom (r : regex) (skip : nat) (piece : string) (s : string)
  : list string :=
  match s with
  | EmptyString => [piece]
  | String c s' =>
      match skip with
      | S n => splitFrom r n piece s'
      | O =>
          match matchAt r s with
          | None => splitFrom r 0 (piece ++ String c EmptyString) s'
          | Some rest =>
              let consumed := (String.length s - String.length rest)%nat in
              match consumed with
              | S n => piece :: splitFrom r n EmptyString s'
              | O =>
                  (* empty match: splits only after a non-empty piece *)
                  if isEmptyString piece
                  then splitFrom r 0 (String c EmptyString) s'
                  else piece :: splitFrom r 0 (String c EmptyString) s'
              end
          end
      end
  end.

(** [s.split(r)] for a regular expression [r]. *)
Definition split (r : regex) (s : string) : list string :=
  match s with
  | EmptyString =>
      match matchAt r s with Some _ => [] | None => [EmptyString] end
  | _ => splitFrom r 0 EmptyString s
  end.

End Regex.

(* ===================================================================== *)
(** ** Helpers of api/clinical-programs.ts                                *)
(* ===================================================================== *)

Module Helpers.
Import Js Regex.

(** [firstAttachmentUrl(attachments)]. *)
Definition firstAttachmentUrl (attachments : JsValue) : JsValue :=
  let list := or attachments (JsArray []) in
  match list with
  | JsArray (first :: _) =>
      if truthy (optUrl first) then optUrl first else JsUndefined
  | _ => JsUndefined
  end.

(** The fallback chain of every child item:
    [(typeof link === 'string' ? link : undefined)
       || firstAttachmentUrl(file) || undefined]. *)
Definition resolveUrl (link file : JsValue) : JsValue :=
  or (or (stringOrUndefined link) (firstAttachmentUrl file)) JsUndefined.

(** [value.replace(/'/g, "''")]. *)
Fixpoint escapeFormulaString (value : string) : string :=
  match value with
  | EmptyString => EmptyString
  | String c rest =>
      if Ascii.eqb c quote
      then String quote (String quote (escapeFormulaString rest))
      else String c (escapeFormulaString rest)
  end.

(** [/\n\s*\n|\r\n\r\n|\n/g]. *)
Definition overviewSeparator : regex :=
  Alt (Seq (One (Lit nl)) (Seq (Star WhiteSpace) (One (Lit nl))))
      (Alt (Seq (One (Lit cr)) (Seq (One (Lit nl))
              (Seq (One (Lit cr)) (One (Lit nl)))))
           (One (Lit nl))).

(** [overviewRaw ? overviewRaw.split(...).map(s => s.trim()).filter(Boolean) : []]. *)
Definition segment (overviewRaw : string) : list string :=
  if isEmptyString overviewRaw then []
  else filter (fun s => negb (isEmptyString s))
              (map trim (split overviewSeparator overviewRaw)).

End Helpers.

(* ===================================================================== *)
(** ** The record store as seen through the airtable.js client            *)
(* ===================================================================== *)

Module Airtable.
Import Js.

Record AirtableRecord : Type := mkRecord {
  id : string;
  fields : list (string * JsValue)
}.

(** [r.get(name)], which is [r.fields[name]]. *)
Definition get (r : AirtableRecord) (name : string) : JsValue :=
  lookup name (fields r).

Inductive Direction : Type := Asc | Desc.

(** The argument of [base(table).select({...})]. *)
Record SelectParams : Type := mkSelect {
  filterByFormula : option string;
  selectFields : option (list string);       (* fields: *)
  sort : list (string * Direction);
  maxRecords : option nat;
  pageSize : option nat
}.

(** One HTTP round-trip of the client: a page of a query on a table. *)
Record PageRequest : Type := mkPageRequest {
  table : string;
  params : SelectParams;
  page : nat
}.

(** The store: for a table and a filter formula, the records that satisfy
    the formula in the table's own order; and, for each round-trip, the
    message of the error it ends with, if it fails.

    The client reads the parameters of a query as follows. [fields] names
    the cells returned; [sort] orders the records; [maxRecords] is the
    maximum total number of records; [pageSize] is the number of records
    returned in each round-trip. [firstPage()] fetches the first page and
    [all()] fetches every page. *)
Record Store : Type := mkStore {
  rows : string -> option string -> list AirtableRecord;
  failure : PageRequest -> option string
}.

(** The sort key of a record on a numeric field; a cell that holds no
    number counts as empty and sorts first. *)
Definition sortKey (field : string) (r : AirtableRecord) : option Z :=
  match get r field with
  | JsNumber z => Some z
  | _ => None
  end.

Definition keyLeb (a b : option Z) : bool :=
  match a, b with
  | None, _ => true
  | Some _, None => false
  | Some x, Some y => Z.leb x y
  end.

Definition recLeb (spec : string * Direction) (a b : AirtableRecord) : bool :=
  match snd spec with
  | Asc => keyLeb (sortKey (fst spec) a) (sortKey (fst spec) b)
  | Desc => keyLeb (sortKey (fst spec) b) (sortKey (fst spec) a)
  end.

Section StableSort.
Context {A : Type} (leb : A -> A -> bool).

Fixpoint insert (x : A) (l : list A) : list A :=
  match l with
  | [] => [x]
  | y :: l' => if leb x y then x :: l else y :: insert x l'
  end.

Fixpoint insertionSort (l : list A) : list A :=
  match l with
  | [] => []
  | x :: l' => insert x (insertionSort l')
  end.
End StableSort.

(** Modelled from the spec: the ordering a [sort] parameter asks of the
    store is carried out by the store itself and is absent from the
    repository; the spec describes it as ascending by [sortOrder] with a
    stable sort in which ties keep the store's order. Several sort fields
    are applied from the last to the first. *)
Definition sortRows (specs : list (string * Direction))
    (l : list AirtableRecord) : list AirtableRecord :=
  fold_right (fun spec acc => insertionSort (recLeb spec) acc) l specs.

(** [maxRecords]: the maximum total number of records returned. *)
Definition truncate (m : option nat) (l : list AirtableRecord)
  : list AirtableRecord :=
  match m with
  | Some n => firstn n l
  | None => l
  end.

(** [fields]: only the named cells of each record are returned. *)
Definition project (fs : option (list string)) (r : AirtableRecord)
  : AirtableRecord :=
  match fs with
  | None => r
  | Some names =>
      mkRecord (id r)
        (filter (fun kv => existsb (String.eqb (fst kv)) names) (fields r))
  end.

(** Every record a query selects, in the order the store returns them. *)
Definition resultSet (st : Store) (tbl : string) (q : SelectParams)
  : list AirtableRecord :=
  map (project (selectFields q))
      (truncate (maxRecords q)
         (sortRows (sort q) (rows st tbl (filterByFormula q)))).

(** [pageSize]: the number of records returned in each round-trip; the
    store's default is 100. *)
Definition pageLimit (q : SelectParams) : nat :=
  match pageSize q with
  | Some n => n
  | None => 100
  end.

Fixpoint chunkFuel {A : Type} (fuel n : nat) (l : list A) : list (list A) :=
  match fuel with
  | O => []
  | S fuel' =>
      match l with
      | [] => []
      | _ => firstn n l :: chunkFuel fuel' n (skipn n l)
      end
  end.

(** Consecutive pages of [n] records; one record per page is enough fuel
    (see [concat_chunk]). *)
Definition chunk {A : Type} (n : nat) (l : list A) : list (list A) :=
  chunkFuel (List.length l) n l.

(** The pages of a query: an empty result set still takes one round-trip
    that returns an empty page. *)
Definition pagesOf (st : Store) (tbl : string) (q : SelectParams)
  : list (list AirtableRecord) :=
  match chunk (pageLimit q) (resultSet st tbl q) with
  | [] => [[]]
  | ps => ps
  end.

End Airtable.

(* ===================================================================== *)
(** ** The handler monad: request log, console, exceptions                *)
(* ===================================================================== *)

Module Eff.
Import Js Airtable.

Inductive JsError : Type :=
| UpstreamError (message : string)     (* rejected store round-trip *)
| TypeError (message : string).

Definition message (e : JsError) : string :=
  match e with
  | UpstreamError m => m
  | TypeError m => m
  end.

Inductive LogArg : Type :=
| LogString (s : string)
| LogError (e : JsError).

Record World : Type := mkWorld {
  requests : list PageRequest;          (* round-trips sent to the store *)
  console : list (list LogArg)          (* console.error calls *)
}.

Definition emptyWorld : World := mkWorld [] [].

Inductive Outcome (A : Type) : Type :=
| Return (a : A)
| Throw (e : JsError).
Arguments Return {A} a.
Arguments Throw {A} e.

Definition M (A : Type) : Type := World -> Outcome A * World.

Definition ret {A} (a : A) : M A := fun w => (Return a, w).
Definition throw {A} (e : JsError) : M A := fun w => (Throw e, w).

Definition bind {A B} (m : M A) (k : A -> M B) : M B :=
  fun w =>
    match m w with
    | (Return a, w') => k a w'
    | (Throw e, w') => (Throw e, w')
    end.

(** Runs [m] to its completion and hands back how it settled. *)
Definition settle {A} (m : M A) : M (Outcome A) :=
  fun w => let '(o, w') := m w in (Return o, w').

Definition consoleError (args : list LogArg) : M unit :=
  fun w => (Return tt, mkWorld (requests w) (console w ++ [args])).

(** One round-trip: it is logged, then it fails or delivers its page. *)
Definition roundTrip (st : Store) (rq : PageRequest)
    (pg : list AirtableRecord) : M (list AirtableRecord) :=
  fun w =>
    let w' := mkWorld (requests w ++ [rq]) (console w) in
    match failure st rq with
    | Some msg => (Throw (UpstreamError msg), w')
    | None => (Return pg, w')
    end.

End Eff.

Notation "x <- m ;; k" := (Eff.bind m (fun x => k))
  (at level 61, m at next level, right associativity).

Module Query.
Import Js Airtable Eff.

(** [select(q).firstPage()]: the first page only. *)
Definition firstPage (st : Store) (tbl : string) (q : SelectParams)
  : M (list AirtableRecord) :=
  roundTrip st (mkPageRequest tbl q 0) (hd [] (pagesOf st tbl q)).

Fixpoint eachPage (st : Store) (tbl : string) (q : SelectParams)
    (pages : list (list AirtableRecord)) (i : nat)
    (acc : list AirtableRecord) : M (list AirtableRecord) :=
  match pages with
  | [] => ret acc
  | pg :: more =>
      recs <- roundTrip st (mkPageRequest tbl q i) pg ;;
      eachPage st tbl q more (S i) (acc ++ recs)
  end.

(** [select(q).all()]: fetches every page, one after the other, and
    returns the records of all of them. *)
Definition all (st : Store) (tbl : string) (q : SelectParams)
  : M (list AirtableRecord) :=
  eachPage st tbl q (pagesOf st tbl q) 0 [].

(** [Promise.all] of four queries: the four are started together and each
    runs on whatever becomes of the others; the result is their four
    values, or the first rejection. The log lists the round-trips query by
    query, one of the orders in which they can reach the store. *)
Definition promiseAll4 {A} (m1 m2 m3 m4 : M A) : M (A * A * A * A) :=
  o1 <- settle m1 ;;
  o2 <- settle m2 ;;
  o3 <- settle m3 ;;
  o4 <- settle m4 ;;
  match o1, o2, o3, o4 with
  | Return a, Return b, Return c, Return d => ret (a, b, c, d)
  | Throw e, _, _, _ => throw e
  | _, Throw e, _, _ => throw e
  | _, _, Throw e, _ => throw e
  | _, _, _, Throw e => throw e
  end.

End Query.

(* ===================================================================== *)
(** ** The request handler                                                *)
(* ===================================================================== *)

Module Api.
Import Js Regex Helpers Airtable Eff Query.

(** What the handler reads of the incoming message: its method, and the
    decoded name/value pairs of [new URL(req.url || '', 'http://localhost')
    .searchParams] in their order, [None] when the URL constructor throws. *)
Record Request : Type := mkRequest {
  method : option string;
  searchParams : option (list (string * string))
}.

(** [process.env]. *)
Record Env : Type := mkEnv {
  AIRTABLE_API_KEY : option string;
  AIRTABLE_BASE_ID : option string
}.

Record Response : Type := mkResponse {
  statusCode : nat;
  headers : list (string * string);
  body : JsValue                       (* the value given to JSON.stringify *)
}.

(** [params[k] = v]. *)
Fixpoint assign (k v : string) (params : list (string * string))
  : list (string * string) :=
  match params with
  | [] => [(k, v)]
  | (k', v') :: rest =>
      if String.eqb k k' then (k, v) :: rest else (k', v') :: assign k v rest
  end.

Fixpoint param (k : string) (params : list (string * string)) : option string :=
  match params with
  | [] => None
  | (k', v) :: rest => if String.eqb k k' then Some v else param k rest
  end.

(** [url.searchParams.forEach((v, k) => (params[k] = v))] from [{}]. *)
Definition queryOf (pairs : list (string * string)) : list (string * string) :=
  fold_left (fun params kv => assign (fst kv) (snd kv) params) pairs [].

(** [getQuery(req)]. *)
Definition getQuery (req : Request) : M (list (string * string)) :=
  match searchParams req with
  | None => throw (TypeError "Invalid URL")
  | Some pairs => ret (queryOf pairs)
  end.

(** [(query.slug || '').trim()]. *)
Definition slugOf (query : list (string * string)) : string :=
  trim (match param "slug" query with
        | Some v => if isEmptyString v then "" else v
        | None => ""
        end).

(** [req.method === 'GET']. *)
Definition isGet (m : option string) : bool :=
  match m with
  | Some s => String.eqb s "GET"
  | None => false
  end.

(** [!v] for an environment variable. *)
Definition missing (v : option string) : bool :=
  match v with
  | Some s => isEmptyString s
  | None => true
  end.

Definition jsonHeaders : list (string * string) :=
  [("Content-Type", "application/json")].

Definition cachedJsonHeaders : list (string * string) :=
  [("Content-Type", "application/json");
   ("Cache-Control", "s-maxage=60, stale-while-revalidate=300")].

Definition errorBody (msg : string) : JsValue :=
  JsObject [("error", JsString msg)].

Definition methodNotAllowed : Response :=
  mkResponse 405 jsonHeaders (errorBody "Method Not Allowed").

Definition notConfigured : Response :=
  mkResponse 500 jsonHeaders
    (errorBody "Airtable is not configured. Set AIRTABLE_API_KEY and AIRTABLE_BASE_ID in your Vercel project.").

Definition programNotFound : Response :=
  mkResponse 404 jsonHeaders (errorBody "Program not found").

Definition internalServerError : Response :=
  mkResponse 500 jsonHeaders (errorBody "Internal Server Error").

(** The queries the handler builds. *)
Definition listingQuery : SelectParams :=
  mkSelect None (Some ["programName"; "programDescription"; "programSlug"])
           [] None (Some 50).

Definition parentFormula (esc : string) : string :=
  "{programSlug} = '" ++ esc ++ "'".

Definition childFormula (esc : string) : string :=
  "'" ++ esc ++ "' IN {programSlug}".

Definition parentQuery (esc : string) : SelectParams :=
  mkSelect (Some (parentFormula esc)) None [] (Some 1) None.

Definition modulesQuery (esc : string) : SelectParams :=
  mkSelect (Some (childFormula esc))
           (Some ["moduleName"; "moduleLength"; "moduleFile"; "moduleLink"; "sortOrder"])
           [("sortOrder", Asc)] None (Some 100).

Definition manualsQuery (esc : string) : SelectParams :=
  mkSelect (Some (childFormula esc))
           (Some ["protocolName"; "protocolFile"; "fileLink"])
           [] None (Some 100).

Definition formsQuery (esc : string) : SelectParams :=
  mkSelect (Some (childFormula esc))
           (Some ["formName"; "formFile"; "formCategory"; "formLink"])
           [] None (Some 200).

Definition resourcesQuery (esc : string) : SelectParams :=
  mkSelect (Some (childFormula esc))
           (Some ["resourceName"; "resourceFile"; "resourceLink"])
           [] None (Some 100).

(** The items of the responses. *)
Definition listItem (r : AirtableRecord) : JsValue :=
  JsObject [("slug", or (get r "programSlug") (JsString ""));
            ("name", or (get r "programName") (JsString ""));
            ("description", or (get r "programDescription") (JsString ""))].

Definition moduleItem (m : AirtableRecord) : JsValue :=
  JsObject [("id", JsString (id m));
            ("name", or (get m "moduleName") (JsString ""));
            ("duration", or (get m "moduleLength") JsUndefined);
            ("description", JsUndefined);
            ("url", resolveUrl (lookup "moduleLink" (fields m)) (get m "moduleFile"))].

Definition manualItem (doc : AirtableRecord) : JsValue :=
  JsObject [("id", JsString (id doc));
            ("name", or (get doc "protocolName") (JsString ""));
            ("fileUrl", resolveUrl (lookup "fileLink" (fields doc)) (get doc "protocolFile"))].

Definition formItem (f : AirtableRecord) : JsValue :=
  JsObject [("id", JsString (id f));
            ("name", or (get f "formName") (JsString ""));
            ("category", or (get f "formCategory") JsUndefined);
            ("fileUrl", resolveUrl (lookup "formLink" (fields f)) (get f "formFile"))].

Definition resourceItem (r : AirtableRecord) : JsValue :=
  JsObject [("id", JsString (id r));
            ("name", or (get r "resourceName") (JsString ""));
            ("type", JsUndefined);
            ("url", resolveUrl (lookup "resourceLink" (fields r)) (get r "resourceFile"))].

(** The overview paragraphs; [split] exists on strings only. *)
Definition overviewOf (overviewRaw : JsValue) : M (list string) :=
  if truthy overviewRaw then
    match overviewRaw with
    | JsString s => ret (segment s)
    | _ => throw (TypeError "overviewRaw.split is not a function")
    end
  else ret [].

Definition detailOf (slug : string) (p : AirtableRecord) (overview : list string)
    (modules manuals forms resources : list AirtableRecord) : JsValue :=
  JsObject [("slug", JsString slug);
            ("title", or (get p "programName") (JsString ""));
            ("subtitle", or (get p "programDescription") (JsString ""));
            ("image", JsUndefined);
            ("overview", JsArray (map JsString overview));
            ("modules", JsArray (map moduleItem modules));
            ("manuals", JsArray (map manualItem manuals));
            ("forms", JsArray (map formItem forms));
            ("resources", JsArray (map resourceItem resources))].

(** The listing path: no slug. *)
Definition listing (st : Store) : M Response :=
  records <- all st "ClinicalPrograms" listingQuery ;;
  ret (mkResponse 200 cachedJsonHeaders
         (JsObject [("items", JsArray (map listItem records))])).

(** The detail path: one program by slug. *)
Definition detail (st : Store) (slug : string) : M Response :=
  let esc := escapeFormulaString slug in
  progRecords <- firstPage st "ClinicalPrograms" (parentQuery esc) ;;
  match progRecords with
  | [] => ret programNotFound
  | p :: _ =>
      overview <- overviewOf (or (get p "programOverview") (JsString "")) ;;
      children <- promiseAll4
                    (all st "TrainingModules" (modulesQuery esc))
                    (all st "ProtocolManuals" (manualsQuery esc))
                    (all st "DocumentationForms" (formsQuery esc))
                    (all st "AdditionalResources" (resourcesQuery esc)) ;;
      let '(modules, manuals, forms, resources) := children in
      ret (mkResponse 200 cachedJsonHeaders
             (detailOf slug p overview modules manuals forms resources))
  end.

(** The body of the [try] block. *)
Definition tryBlock (env : Env) (st : Store) (req : Request) : M Response :=
  if negb (isGet (method req)) then ret methodNotAllowed
  else if missing (AIRTABLE_API_KEY env) || missing (AIRTABLE_BASE_ID env)
  then ret notConfigured
  else
    query <- getQuery req ;;
    let slug := slugOf query in
    if isEmptyString slug then listing st else detail st slug.

(** [err?.message || err]. *)
Definition shown (e : JsError) : LogArg :=
  if isEmptyString (message e) then LogError e else LogString (message e).

(** [handler(req, res)]: the response written to [res], and the world the
    call leaves behind. *)
Definition handler (env : Env) (st : Store) (req : Request)
  : World -> Response * World :=
  fun w =>
    match tryBlock env st req w with
    | (Return res, w') => (res, w')
    | (Throw err, w') =>
        let '(_, w'') :=
          consoleError [LogString "API /clinical-programs error:"; shown err] w' in
        (internalServerError, w'')
    end.

Definition run (env : Env) (st : Store) (req : Request) : Response * World :=
  handler env st req emptyWorld.

End Api.

(* ===================================================================== *)
(** ** String literals of the filter language                             *)
(* ===================================================================== *)

Module Formula.
Import Js.

(** Modelled from the spec: the lexer of the store's filter language is
    not part of the repository; the spec gives its string-literal syntax
    as single-quoted, a quote inside a literal being written doubled, and
    no other character is special inside a literal. [scanLiteral s] reads
    a literal whose opening quote has just been passed: the text it
    denotes and the input left after its closing quote, [None] when the
    literal is never closed. *)
Fixpoint scanLiteral (s : string) : option (string * string) :=
  match s with
  | EmptyString => None
  | String c rest =>
      if Ascii.eqb c quote then
        match rest with
        | String c' rest' =>
            if Ascii.eqb c' quote then
              match scanLiteral rest' with
              | Some (text, after) => Some (String quote text, after)
              | None => None
              end
            else Some (EmptyString, rest)
        | EmptyString => Some (EmptyString, EmptyString)
        end
      else
        match scanLiteral rest with
        | Some (text, after) => Some (String c text, after)
        | None => None
        end
  end.

(** A literal at the start of [s]. *)
Definition readLiteral (s : string) : option (string * string) :=
  match s with
  | String c rest => if Ascii.eqb c quote then scanLiteral rest else None
  | EmptyString => None
  end.

(** [s] without the prefix [p], when it starts with it. *)
Fixpoint stripPrefix (p s : string) : option string :=
  match p, s with
  | EmptyString, _ => Some s
  | String a p', String b s' => if Ascii.eqb a b then stripPrefix p' s' else None
  | String _ _, EmptyString => None
  end.

End Formula.

Import Js Regex Helpers Airtable Eff Query Api Formula.

(* ===================================================================== *)
(** ** Predicates and sample inputs of the statements                     *)
(* ===================================================================== *)

Definition A_nl_nl_B : string := String "A" (String nl (String nl "B")).
Definition A_crlf2_B : string :=
  String "A" (String cr (String nl (String cr (String nl "B")))).
Definition para3 : string :=
  String " " (String "a" (String nl (String " " (String "009" (String nl
    (String nl (String "b" (String " " (String nl "c "))))))))).

(** [c] occurs in [s]. *)
Fixpoint occurs (c : ascii) (s : string) : bool :=
  match s with
  | EmptyString => false
  | String c' s' => Ascii.eqb c c' || occurs c s'
  end.

(** [s] consists of white space only (possibly of nothing). *)
Fixpoint blank (s : string) : bool :=
  match s with
  | EmptyString => true
  | String c s' => isWhiteSpace c && blank s'
  end.




(** The world after the round-trips [rqs] have been added to the log. *)
Definition addRequests (w : World) (rqs : list PageRequest) : World :=
  mkWorld (requests w ++ rqs) (console w).

(** [rq] is a round-trip of the query [q] on the table [tbl]. *)
Definition issuedFor (tbl : string) (q : SelectParams) (rq : PageRequest) : Prop :=
  table rq = tbl /\ params rq = q.

Definition succeeds (st : Store) (rq : PageRequest) : Prop :=
  failure st rq = None.

Definition failsWith (st : Store) (msg : string) (rq : PageRequest) : Prop :=
  failure st rq = Some msg.

(** How a query run from the world [w] ends: either every round-trip went
    through and the value is [result], or one of them failed and its error
    is thrown. *)
Definition queryRun (st : Store) (tbl : string) (q : SelectParams)
    (result : list AirtableRecord) (w : World)
    (out : Outcome (list AirtableRecord) * World) : Prop :=
  exists rqs,
    Forall (issuedFor tbl q) rqs /\
    ((out = (Return result, addRequests w rqs) /\ Forall (succeeds st) rqs)
     \/ (exists msg, out = (Throw (UpstreamError msg), addRequests w rqs)
                     /\ Exists (failsWith st msg) rqs)).

(** The round-trip of the parent lookup. *)
Definition parentRequest (slug : string) : PageRequest :=
  mkPageRequest "ClinicalPrograms" (parentQuery (escapeFormulaString slug)) 0.

(** The records the parent lookup delivers. *)
Definition parentRecords (st : Store) (slug : string) : list AirtableRecord :=
  hd [] (pagesOf st "ClinicalPrograms" (parentQuery (escapeFormulaString slug))).

(** The four child queries of a slug, with their tables. *)
Definition childQueries (slug : string) : list (string * SelectParams) :=
  let esc := escapeFormulaString slug in
  [("TrainingModules", modulesQuery esc);
   ("ProtocolManuals", manualsQuery esc);
   ("DocumentationForms", formsQuery esc);
   ("AdditionalResources", resourcesQuery esc)].

Definition isChildRequest (slug : string) (rq : PageRequest) : Prop :=
  In (table rq, params rq) (childQueries slug).

(** The 200 responses. *)
Definition listingResponse (st : Store) : Response :=
  mkResponse 200 cachedJsonHeaders
    (JsObject [("items",
       JsArray (map listItem (resultSet st "ClinicalPrograms" listingQuery)))]).

Definition detailResponse (st : Store) (slug : string) (p : AirtableRecord)
    (overview : list string) : Response :=
  let esc := escapeFormulaString slug in
  mkResponse 200 cachedJsonHeaders
    (detailOf slug p overview
       (resultSet st "TrainingModules" (modulesQuery esc))
       (resultSet st "ProtocolManuals" (manualsQuery esc))
       (resultSet st "DocumentationForms" (formsQuery esc))
       (resultSet st "AdditionalResources" (resourcesQuery esc))).

(** The ways through the [try] block: how it settles and the round-trips it
    sent to the store, in order. *)
Inductive Path (env : Env) (st : Store) (req : Request)
  : Outcome Response -> list PageRequest -> Prop :=
| PathMethod :
    isGet (method req) = false ->
    Path env st req (Return methodNotAllowed) []
| PathConfig :
    isGet (method req) = true ->
    missing (AIRTABLE_API_KEY env) || missing (AIRTABLE_BASE_ID env) = true ->
    Path env st req (Return notConfigured) []
| PathUrl :
    isGet (method req) = true ->
    missing (AIRTABLE_API_KEY env) || missing (AIRTABLE_BASE_ID env) = false ->
    searchParams req = None ->
    Path env st req (Throw (TypeError "Invalid URL")) []
| PathListing pairs rqs :
    isGet (method req) = true ->
    missing (AIRTABLE_API_KEY env) || missing (AIRTABLE_BASE_ID env) = false ->
    searchParams req = Some pairs ->
    slugOf (queryOf pairs) = "" ->
    Forall (issuedFor "ClinicalPrograms" listingQuery) rqs ->
    Forall (succeeds st) rqs ->
    Path env st req (Return (listingResponse st)) rqs
| PathListingFailed pairs rqs msg :
    isGet (method req) = true ->
    missing (AIRTABLE_API_KEY env) || missing (AIRTABLE_BASE_ID env) = false ->
    searchParams req = Some pairs ->
    slugOf (queryOf pairs) = "" ->
    Forall (issuedFor "ClinicalPrograms" listingQuery) rqs ->
    Exists (failsWith st msg) rqs ->
    Path env st req (Throw (UpstreamError msg)) rqs
| PathParentFailed pairs msg :
    isGet (method req) = true ->
    missing (AIRTABLE_API_KEY env) || missing (AIRTABLE_BASE_ID env) = false ->
    searchParams req = Some pairs ->
    slugOf (queryOf pairs) <> "" ->
    failsWith st msg (parentRequest (slugOf (queryOf pairs))) ->
    Path env st req (Throw (UpstreamError msg))
         [parentRequest (slugOf (queryOf pairs))]
| PathNotFound pairs :
    isGet (method req) = true ->
    missing (AIRTABLE_API_KEY env) || missing (AIRTABLE_BASE_ID env) = false ->
    searchParams req = Some pairs ->
    slugOf (queryOf pairs) <> "" ->
    succeeds st (parentRequest (slugOf (queryOf pairs))) ->
    parentRecords st (slugOf (queryOf pairs)) = [] ->
    Path env st req (Return programNotFound)
         [parentRequest (slugOf (queryOf pairs))]
| PathOverview pairs p rest e :
    isGet (method req) = true ->
    missing (AIRTABLE_API_KEY env) || missing (AIRTABLE_BASE_ID env) = false ->
    searchParams req = Some pairs ->
    slugOf (queryOf pairs) <> "" ->
    succeeds st (parentRequest (slugOf (queryOf pairs))) ->
    parentRecords st (slugOf (queryOf pairs)) = p :: rest ->
    (forall w, overviewOf (or (get p "programOverview") (JsString "")) w
               = (Throw (TypeError e), w)) ->
    Path env st req (Throw (TypeError e))
         [parentRequest (slugOf (queryOf pairs))]
| PathDetail pairs p rest overview rqs :
    isGet (method req) = true ->
    missing (AIRTABLE_API_KEY env) || missing (AIRTABLE_BASE_ID env) = false ->
    searchParams req = Some pairs ->
    slugOf (queryOf pairs) <> "" ->
    succeeds st (parentRequest (slugOf (queryOf pairs))) ->
    parentRecords st (slugOf (queryOf pairs)) = p :: rest ->
    (forall w, overviewOf (or (get p "programOverview") (JsString "")) w
               = (Return overview, w)) ->
    Forall (isChildRequest (slugOf (queryOf pairs))) rqs ->
    Forall (succeeds st) rqs ->
    Path env st req
         (Return (detailResponse st (slugOf (queryOf pairs)) p overview))
         (parentRequest (slugOf (queryOf pairs)) :: rqs)
| PathChildFailed pairs p rest rqs msg :
    isGet (method req) = true ->
    missing (AIRTABLE_API_KEY env) || missing (AIRTABLE_BASE_ID env) = false ->
    searchParams req = Some pairs ->
    slugOf (queryOf pairs) <> "" ->
    succeeds st (parentRequest (slugOf (queryOf pairs))) ->
    parentRecords st (slugOf (queryOf pairs)) = p :: rest ->
    Forall (isChildRequest (slugOf (queryOf pairs))) rqs ->
    Exists (failsWith st msg) rqs ->
    Path env st req (Throw (UpstreamError msg))
         (parentRequest (slugOf (queryOf pairs)) :: rqs).

(** The elements of the array held by the property [k] of an object. *)
Definition arrayAt (k : string) (v : JsValue) : list JsValue :=
  match prop k v with
  | JsArray l => l
  | _ => []
  end.

(** Equality of sort keys. *)
Definition sameKey (a b : option Z) : bool :=
  match a, b with
  | None, None => true
  | Some x, Some y => Z.eqb x y
  | _, _ => false
  end.

(** The records of [l] whose [sortOrder] is [k], in their order in [l]. *)
Definition withSortOrder (k : option Z) (l : list AirtableRecord)
  : list AirtableRecord :=
  filter (fun r => sameKey k (sortKey "sortOrder" r)) l.

(** The order of the records by a key, as a test and as a relation. *)
Definition lebBy {A : Type} (key : A -> option Z) (a b : A) : bool :=
  keyLeb (key a) (key b).

Definition leBy {A : Type} (key : A -> option Z) (a b : A) : Prop :=
  lebBy key a b = true.

(** Ascending order of [sortOrder]. *)
Definition sortOrderLe (a b : AirtableRecord) : Prop :=
  keyLeb (sortKey "sortOrder" a) (sortKey "sortOrder" b) = true.

(** The literal read in the parent filter, after its fixed left-hand side. *)
Definition readParentLiteral (formula : string) : option (string * string) :=
  match stripPrefix "{programSlug} = " formula with
  | Some rest => readLiteral rest
  | None => None
  end.

(** A configured environment and two requests. *)
Definition env0 : Env := mkEnv (Some "keyXXXX") (Some "appXXXX").

Definition getListing : Request := mkRequest (Some "GET") (Some []).

Definition getDetail (slug : string) : Request :=
  mkRequest (Some "GET") (Some [("slug", slug)]).

(** A store with 51 programs; the program [p] has 101 training modules and
    four manuals. No round-trip fails. *)
Definition program_p : AirtableRecord :=
  mkRecord "recP"
    [("programSlug", JsString "p"); ("programName", JsString "Program P");
     ("programOverview", JsString A_nl_nl_B)].

Definition module_of (rid : string) (order : option Z) : AirtableRecord :=
  mkRecord rid
    ([("moduleName", JsString rid); ("programSlug", JsArray [JsString "p"])]
       ++ match order with
          | Some z => [("sortOrder", JsNumber z)]
          | None => []
          end).

Definition fourModules : list AirtableRecord :=
  [module_of "recA" (Some 2%Z); module_of "recB" (Some 1%Z);
   module_of "recC" (Some 2%Z); module_of "recD" None].

Definition optionStringEqb (a b : option string) : bool :=
  match a, b with
  | Some x, Some y => String.eqb x y
  | None, None => true
  | _, _ => false
  end.

Definition bigRows (tbl : string) (formula : option string)
  : list AirtableRecord :=
  if String.eqb tbl "ClinicalPrograms" then
    match formula with
    | None => repeat program_p 51
    | Some f => if String.eqb f (parentFormula "p") then [program_p] else []
    end
  else if String.eqb tbl "TrainingModules" then
    if optionStringEqb formula (Some (childFormula "p"))
    then repeat (module_of "recM" (Some 1%Z)) 101 else []
  else [].

Definition bigStore : Store := mkStore bigRows (fun _ => None).

Definition smallRows (tbl : string) (formula : option string)
  : list AirtableRecord :=
  if String.eqb tbl "ClinicalPrograms" then
    match formula with
    | None => [program_p]
    | Some f => if String.eqb f (parentFormula "p") then [program_p] else []
    end
  else if String.eqb tbl "TrainingModules" then
    if optionStringEqb formula (Some (childFormula "p"))
    then fourModules else []
  else [].

Definition smallStore : Store := mkStore smallRows (fun _ => None).

(** The small store when every round-trip to [tbl] fails with [msg]. *)
Definition failingStore (tbl msg : string) : Store :=
  mkStore smallRows
    (fun rq => if String.eqb (table rq) tbl then Some msg else None).

(** The number of occurrences of [c] in [s]. *)
Fixpoint countChar (c : ascii) (s : string) : nat :=
  match s with
  | EmptyString => 0
  | String c' s' => (if Ascii.eqb c c' then 1 else 0) + countChar c s'
  end.


(** A cell that [overviewOf] can segment: nothing, or a string. *)
Definition textOrEmpty (v : JsValue) : Prop :=
  truthy v = false \/ exists s, v = JsString s.

(** A program whose overview cell holds a number. *)
Definition program_n : AirtableRecord :=
  mkRecord "recN"
    [("programSlug", JsString "n"); ("programOverview", JsNumber 7%Z)].

Definition oddRows (tbl : string) (formula : option string)
  : list AirtableRecord :=
  if String.eqb tbl "ClinicalPrograms" then
    match formula with
    | None => [program_n; program_p]
    | Some f =>
        if String.eqb f (parentFormula "n") then [program_n]
        else if String.eqb f (parentFormula "p")
             then [program_p; mkRecord "recP2" [("programName", JsString "Other")]]
             else []
    end
  else [].

Definition oddStore : Store := mkStore oddRows (fun _ => None).

(* ===================================================================== *)
(** ** src/config/airtableConfig.ts                                       *)
(* ===================================================================== *)

Module Config.

(** [localStorage] as the functions read it: [None] when reading it throws
    (no storage in this context, access denied), otherwise [getItem]. *)
Definition Storage : Type := option (string -> option string).

Definition AIRTABLE_BASE_ID : string := "appuo6esxsc55yCgI".

(** [getAirtableBaseId()]. The file reads [DEFAULT_AIRTABLE_BASE_ID] and
    declares no such name; [default] is what the global scope binds it to,
    [None] when it binds nothing and reading it throws a ReferenceError,
    which the [catch] turns into [AIRTABLE_BASE_ID]. *)
Definition getAirtableBaseId (storage : Storage) (default : option string)
  : string :=
  match storage with
  | None => AIRTABLE_BASE_ID
  | Some getItem =>
      match getItem "AIRTABLE_BASE_ID" with
      | Some v =>
          if isEmptyString v
          then match default with Some d => d | None => AIRTABLE_BASE_ID end
          else v
      | None => match default with Some d => d | None => AIRTABLE_BASE_ID end
      end
  end.

(** [getAirtableToken()]. *)
Definition getAirtableToken (storage : Storage) : option string :=
  match storage with
  | None => None
  | Some getItem => getItem "AIRTABLE_API_KEY"
  end.

(** The client [new Airtable({ apiKey }).base(baseId)]. *)
Record Base : Type := mkBase {
  apiKey : string;
  baseId : string
}.

(** [getAirtableBase()]: the client, or the message of the error thrown. *)
Definition getAirtableBase (storage : Storage) (default : option string)
  : string + Base :=
  let apiKey := getAirtableToken storage in
  let baseId := getAirtableBaseId storage default in
  match apiKey with
  | Some k =>
      if isEmptyString k
      then inl "Airtable PAT not found. Set it in this browser."
      else inr (mkBase k baseId)
  | None => inl "Airtable PAT not found. Set it in this browser."
  end.

(** A storage that holds the given token and base id. *)
Definition storageOf (token base : option string) : Storage :=
  Some (fun k =>
          if String.eqb k "AIRTABLE_API_KEY" then token
          else if String.eqb k "AIRTABLE_BASE_ID" then base
          else None).

End Config.

(* ===================================================================== *)
(** ** The browser-side client of the endpoint                            *)
(* ===================================================================== *)

Module Client.

Definition inRange (lo hi : nat) (c : ascii) : bool :=
  ((lo <=? nat_of_ascii c) && (nat_of_ascii c <=? hi))%nat.

Definition isAlnum (c : ascii) : bool :=
  inRange 48 57 c || inRange 65 90 c || inRange 97 122 c.

(** The characters [encodeURIComponent] leaves as they are:
    letters, digits and [- _ . ! ~ * ' ( )]. *)
Definition isUnreserved (c : ascii) : bool :=
  isAlnum c || occurs c "-_.!~*'()".

Definition hexDigit (n : nat) : ascii :=
  ascii_of_nat (if (n <? 10)%nat then 48 + n else 55 + n).

(** [%XX] for a byte. *)
Definition percent (byte : nat) : string :=
  String "%" (String (hexDigit (byte / 16))
                     (String (hexDigit (byte mod 16)) EmptyString)).

(** The UTF-8 bytes of a code unit in 0..255. *)
Definition utf8 (c : ascii) : list nat :=
  let n := nat_of_ascii c in
  if (n <? 128)%nat then [n] else [192 + n / 64; 128 + n mod 64].

Definition encodeUnit (c : ascii) : string :=
  if isUnreserved c then String c EmptyString
  else String.concat EmptyString (map percent (utf8 c)).

(** [encodeURIComponent(s)]. *)
Fixpoint encodeURIComponent (s : string) : string :=
  match s with
  | EmptyString => EmptyString
  | String c s' => encodeUnit c ++ encodeURIComponent s'
  end.

(** The URL that [fetchProgramDetail(slug)] and the program page fetch:
    [`/api/clinical-programs?slug=${encodeURIComponent(slug)}`]. *)
Definition programDetailUrl (slug : string) : string :=
  "/api/clinical-programs?slug=" ++ encodeURIComponent slug.

(** *** Reading the query of a URL, as [url.searchParams] does *)

Definition hexValue (c : ascii) : option nat :=
  let n := nat_of_ascii c in
  if inRange 48 57 c then Some (n - 48)
  else if inRange 65 70 c then Some (n - 55)
  else if inRange 97 102 c then Some (n - 87)
  else None.

(** Percent-decoding, to bytes. *)
Fixpoint percentDecode (s : string) : string :=
  match s with
  | EmptyString => EmptyString
  | String c s' =>
      if Ascii.eqb c "%" then
        match s' with
        | String h1 (String h2 rest) =>
            match hexValue h1, hexValue h2 with
            | Some a, Some b =>
                String (ascii_of_nat (16 * a + b)) (percentDecode rest)
            | _, _ => String c (percentDecode s')
            end
        | _ => String c (percentDecode s')
        end
      else String c (percentDecode s')
  end.

(** UTF-8 decoding of bytes to code units in 0..255; [None] on a sequence
    that is ill-formed or denotes a character beyond that range. *)
Fixpoint utf8Decode (bytes : string) : option string :=
  match bytes with
  | EmptyString => Some EmptyString
  | String b rest =>
      let n := nat_of_ascii b in
      if (n <? 128)%nat then option_map (String b) (utf8Decode rest)
      else if ((n =? 194) || (n =? 195))%nat then
        match rest with
        | String b2 rest' =>
            if inRange 128 191 b2 then
              option_map
                (String (ascii_of_nat ((n - 192) * 64 + (nat_of_ascii b2 - 128))))
                (utf8Decode rest')
            else None
        | EmptyString => None
        end
      else None
  end.

Fixpoint plusToSpace (s : string) : string :=
  match s with
  | EmptyString => EmptyString
  | String c s' => String (if Ascii.eqb c "+" then " "%char else c) (plusToSpace s')
  end.

(** A name or a value of the query, decoded. *)
Definition decodeComponent (s : string) : option string :=
  utf8Decode (percentDecode (plusToSpace s)).

(** [s] up to the first [c], and what follows it. *)
Fixpoint cut (c : ascii) (s : string) : string * option string :=
  match s with
  | EmptyString => (EmptyString, None)
  | String d s' =>
      if Ascii.eqb d c then (EmptyString, Some s')
      else let '(before, after) := cut c s' in (String d before, after)
  end.

Fixpoint piecesFrom (c : ascii) (piece : string) (s : string) : list string :=
  match s with
  | EmptyString => [piece]
  | String d s' =>
      if Ascii.eqb d c then piece :: piecesFrom c EmptyString s'
      else piecesFrom c (piece ++ String d EmptyString) s'
  end.

(** The query of a URL: what stands between the first [?] and the [#]. *)
Definition searchOf (url : string) : string :=
  match snd (cut "?" (fst (cut "#" url))) with
  | Some q => q
  | None => EmptyString
  end.

Definition decodePair (piece : string) : option (string * string) :=
  let '(name, value) := cut "=" piece in
  match decodeComponent name,
        decodeComponent (match value with Some v => v | None => EmptyString end)
  with
  | Some n, Some v => Some (n, v)
  | _, _ => None
  end.

Fixpoint decodePairs (pieces : list string) : option (list (string * string)) :=
  match pieces with
  | [] => Some []
  | piece :: rest =>
      if isEmptyString piece then decodePairs rest
      else match decodePair piece, decodePairs rest with
           | Some kv, Some l => Some (kv :: l)
           | _, _ => None
           end
  end.

(** The name/value pairs of [url.searchParams], in their order. *)
Definition searchParamsOf (url : string) : option (list (string * string)) :=
  decodePairs (piecesFrom "&" EmptyString (searchOf url)).

(** The request the server sees when the client fetches [url]. *)
Definition getRequest (url : string) : Request :=
  mkRequest (Some "GET") (searchParamsOf url).

(** *** The resource library URL: [fetchResourceLibrary] and the page *)

Inductive Category : Type := handouts | clinical | billing.

Definition categoryName (c : Category) : string :=
  match c with
  | handouts => "handouts"
  | clinical => "clinical"
  | billing => "billing"
  end.

(** The serializer of [URLSearchParams]: letters, digits and [* - . _]
    stay, a space becomes [+], any other byte is percent-encoded. *)
Definition formEncodeUnit (c : ascii) : string :=
  if isAlnum c || occurs c "*-._" then String c EmptyString
  else if Ascii.eqb c " " then "+"
  else String.concat EmptyString (map percent (utf8 c)).

Fixpoint formEncode (s : string) : string :=
  match s with
  | EmptyString => EmptyString
  | String c s' => formEncodeUnit c ++ formEncode s'
  end.

(** [usp.toString()]. *)
Fixpoint serialize (pairs : list (string * string)) : string :=
  match pairs with
  | [] => EmptyString
  | (k, v) :: rest =>
      (formEncode k ++ String "=" (formEncode v))
      ++ match rest with
         | [] => EmptyString
         | _ => String "&" (serialize rest)
         end
  end.

(** The parameters the two [if]s set: [cat] when a category is given, [q]
    when the text is given and not empty. *)
Definition libraryParams (cat : option Category) (q : option string)
  : list (string * string) :=
  match cat with
  | Some c => [("cat", categoryName c)]
  | None => []
  end
  ++ match q with
     | Some v => if isEmptyString v then [] else [("q", v)]
     | None => []
     end.

(** [`/api/resource-library${qs ? `?${qs}` : ''}`]. *)
Definition resourceLibraryUrl (cat : option Category) (q : option string)
  : string :=
  let qs := serialize (libraryParams cat q) in
  "/api/resource-library"
  ++ (if isEmptyString qs then EmptyString else String "?" qs).

(** The URL the resources page fetches, which trims the search text. *)
Definition resourcesPageUrl (category : option Category) (q : string) : string :=
  resourceLibraryUrl category (Some (trim q)).

(** Letters, digits and [* - . _ + %]: what the serializer writes for a
    name or a value; and these with the two signs it puts between them. *)
Definition formSafe (c : ascii) : bool :=
  isAlnum c || occurs c "*-._+%".

Definition querySafe (c : ascii) : bool :=
  formSafe c || occurs c "=&".

(** The UTF-8 bytes of a code unit and of a text, as byte strings. *)
Definition utf8String (c : ascii) : string :=
  string_of_list_ascii (map ascii_of_nat (utf8 c)).

Fixpoint utf8Encode (s : string) : string :=
  match s with
  | EmptyString => EmptyString
  | String c s' => utf8String c ++ utf8Encode s'
  end.

(** Every character of [s] satisfies [p]. *)
Fixpoint allChars (p : ascii -> bool) (s : string) : bool :=
  match s with
  | EmptyString => true
  | String c s' => p c && allChars p s'
  end.

(** Letters, digits, the nine marks and the percent sign. *)
Definition urlSafe (c : ascii) : bool := isUnreserved c || Ascii.eqb c "%".

End Client.

(* ===================================================================== *)
(** ** The programs pages: src/pages/Programs.tsx and the member page     *)
(* ===================================================================== *)

Module Page.

(** What [JSON.parse(JSON.stringify(v))] gives for an object or an array
    [v]: a property whose value is undefined is left out of its object, and
    an undefined element of an array becomes null. *)
Fixpoint jsonView (v : JsValue) : JsValue :=
  match v with
  | JsArray l =>
      JsArray (map (fun x => match x with
                             | JsUndefined => JsNull
                             | _ => jsonView x
                             end) l)
  | JsObject props =>
      JsObject
        ((fix keep (ps : list (string * JsValue)) : list (string * JsValue) :=
            match ps with
            | [] => []
            | (k, x) :: rest =>
                match x with
                | JsUndefined => keep rest
                | _ => (k, jsonView x) :: keep rest
                end
            end) props)
  | _ => v
  end.

(** What the page reads of the response of [fetch]: [res.ok],
    [res.status], and [res.json()] as the value parsed or the message of
    the error thrown. *)
Record FetchResponse : Type := mkFetchResponse {
  ok : bool;
  status : nat;
  json : string + JsValue
}.

(** How [fetch] settles: rejected with an error, or with a response. *)
Inductive Fetched : Type :=
| Rejected (message : string)
| Responded (res : FetchResponse).

(** The state of the page: [programs], [loading], [error]. *)
Record State : Type := mkState {
  programs : JsValue;
  loading : bool;
  error : option string
}.

(** [useState([])], [useState(true)], [useState(null)]. *)
Definition initial : State := mkState (JsArray []) true None.

(** [`${n}`] for a status. *)
Definition statusString (n : nat) : string :=
  NilEmpty.string_of_uint (Nat.to_uint n).

(** The [try] block of [fetchPrograms]: the value given to [setPrograms],
    or the message of the error thrown. Reading [items] of null throws. *)
Definition tryFetch (f : Fetched) : string + JsValue :=
  match f with
  | Rejected msg => inl msg
  | Responded res =>
      if negb (ok res)
      then inl ("Failed to fetch programs: " ++ statusString (status res))%string
      else
        match json res with
        | inl msg => inl msg
        | inr data =>
            match data with
            | JsUndefined | JsNull =>
                inl "Cannot read properties of null (reading 'items')"
            | _ => inr (or (prop "items" data) (JsArray []))
            end
        end
  end.

(** [fetchPrograms()], from the state [s] to the state it leaves:
    [setLoading(true); setError(null)], then the [try] block,
    [setError(err.message)] in the [catch], [setLoading(false)] at last. *)
Definition fetchPrograms (f : Fetched) (s : State) : State :=
  match tryFetch f with
  | inr items => mkState items false None
  | inl msg => mkState (programs s) false (Some msg)
  end.

(** What the page renders: [loading ? ... : error ? ... : ...]. *)
Inductive View : Type :=
| Spinner
| ErrorView (message : string)
| Cards (items : JsValue).

Definition view (s : State) : View :=
  if loading s then Spinner
  else match error s with
       | Some msg => if isEmptyString msg then Cards (programs s)
                     else ErrorView msg
       | None => Cards (programs s)
       end.

(** The response of the handler as [fetch] delivers it to the page. *)
Definition delivered (res : Response) : FetchResponse :=
  mkFetchResponse
    ((200 <=? statusCode res) && (statusCode res <=? 299))%nat
    (statusCode res)
    (inr (jsonView (body res))).

End Page.

(** The object [v] has a property named [k]. *)
Definition hasKey (k : string) (v : JsValue) : bool :=
  match v with
  | JsObject props => existsb (fun kv => String.eqb k (fst kv)) props
  | _ => false
  end.

Definition isUndefined (v : JsValue) : bool :=
  match v with
  | JsUndefined => true
  | _ => false
  end.

(** The properties that [JSON.stringify] writes: those that are defined. *)
Definition keepDefined (props : list (string * JsValue))
  : list (string * JsValue) :=
  flat_map (fun kv => if isUndefined (snd kv) then []
                      else [(fst kv, Page.jsonView (snd kv))]) props.

(** The lines of a text: its pieces between newlines. *)
Fixpoint linesFrom (piece : string) (s : string) : list string :=
  match s with
  | EmptyString => [piece]
  | String c s' =>
      if Ascii.eqb c nl then piece :: linesFrom EmptyString s'
      else linesFrom (piece ++ String c EmptyString) s'
  end.

Definition lines (s : string) : list string := linesFrom EmptyString s.

(** The pieces of a list once trimmed, the empty ones dropped. *)
Definition paragraphsOf (pieces : list string) : list string :=
  filter (fun p => negb (isEmptyString p)) (map trim pieces).

(** The strings a regular expression denotes. *)
Inductive Matches : regex -> string -> Prop :=
| MatchesOne a c :
    atomMatches a c = true -> Matches (One a) (String c EmptyString)
| MatchesStarNil a : Matches (Star a) EmptyString
| MatchesStarCons a c t :
    atomMatches a c = true -> Matches (Star a) t ->
    Matches (Star a) (String c t)
| MatchesSeq r1 r2 t1 t2 :
    Matches r1 t1 -> Matches r2 t2 -> Matches (Seq r1 r2) (t1 ++ t2)
| MatchesAltL r1 r2 t : Matches r1 t -> Matches (Alt r1 r2) t
| MatchesAltR r1 r2 t : Matches r2 t -> Matches (Alt r1 r2) t.

(** Every character the expression can consume is white space. *)
Fixpoint whiteOnly (r : regex) : bool :=
  match r with
  | One (Lit c) | Star (Lit c) => isWhiteSpace c
  | One WhiteSpace | Star WhiteSpace => true
  | Seq r1 r2 | Alt r1 r2 => whiteOnly r1 && whiteOnly r2
  end.

(** Every match of the expression ends with a newline. *)
Fixpoint endsWithNewline (r : regex) : bool :=
  match r with
  | One (Lit c) => Ascii.eqb c nl
  | One WhiteSpace | Star _ => false
  | Seq _ r2 => endsWithNewline r2
  | Alt r1 r2 => endsWithNewline r1 && endsWithNewline r2
  end.

(* ===================================================================== *)
(** ** Strings: trimming                                                  *)
(* ===================================================================== *)

Section Trim.

Lemma isEmptyString_true (s : string) : isEmptyString s = true -> s = "".
Proof. destruct s; simpl; congruence. Qed.

Lemma isEmptyString_false (s : string) : isEmptyString s = false -> s <> "".
Proof. destruct s; simpl; congruence. Qed.






Lemma trimStart_blank (s : string) : blank s = true -> trimStart s = "".
Proof.
  induction s as [|c s IH]; simpl; [reflexivity|].
  intros H. apply andb_true_iff in H as [Hc Hs]. rewrite Hc. auto.
Qed.

Lemma trim_blank (s : string) : blank s = true -> trim s = "".
Proof. intros H. unfold trim. rewrite trimStart_blank by exact H. reflexivity. Qed.




End Trim.

(* ===================================================================== *)
(** ** The overview separator and the pieces of [split]                   *)
(* ===================================================================== *)

Section Separator.

Lemma occurs_append (c : ascii) (a b : string) :
  occurs c (a ++ b) = occurs c a || occurs c b.
Proof.
  induction a as [|d a IH]; simpl; [reflexivity|].
  rewrite IH. apply orb_assoc.
Qed.








(** Every newline starts a separator. *)
Lemma separator_at_newline (s : string) :
  matchAt overviewSeparator (String nl s) <> None.
Proof.
  unfold matchAt, overviewSeparator. simpl.
  destruct (starMatch WhiteSpace s _); discriminate.
Qed.



End Separator.

(* ===================================================================== *)
(** ** Text segmentation of the overview                                  *)
(* ===================================================================== *)

Lemma segment_unfold (raw : string) :
  segment raw =
  filter (fun p => negb (isEmptyString p))
         (map trim (split overviewSeparator raw)).
Proof. destruct raw; reflexivity. Qed.


(* ===================================================================== *)
(** ** Resolution of a child record's URL                                 *)
(* ===================================================================== *)

Lemma or_undefined (v : JsValue) : truthy v = true -> or v JsUndefined = v.
Proof. unfold or. now intros ->. Qed.

Lemma firstAttachmentUrl_cons (first : JsValue) (rest : list JsValue) :
  firstAttachmentUrl (JsArray (first :: rest)) = or (optUrl first) JsUndefined.
Proof. reflexivity. Qed.

Lemma firstAttachmentUrl_falsy_or_undefined (file : JsValue) :
  or (firstAttachmentUrl file) JsUndefined = firstAttachmentUrl file.
Proof.
  unfold firstAttachmentUrl, or.
  destruct file as [| |b|z|s|l|o]; simpl; try reflexivity.
  - destruct b; reflexivity.
  - destruct (negb (z =? 0)%Z); reflexivity.
  - destruct (negb (isEmptyString s)); reflexivity.
  - destruct l as [|first rest]; [reflexivity|].
    destruct (truthy (optUrl first)) eqn:E; [rewrite E|]; reflexivity.
Qed.

Lemma resolveUrl_without_link (link file : JsValue) :
  truthy (stringOrUndefined link) = false ->
  resolveUrl link file = firstAttachmentUrl file.
Proof.
  intros H. unfold resolveUrl. unfold or at 2. rewrite H.
  apply firstAttachmentUrl_falsy_or_undefined.
Qed.


(** C10: an attachment list whose first element has no truthy url resolves
    to undefined, whatever the later elements hold; so does a file cell
    that is not an array. Both hold of [firstAttachmentUrl] and, when the
    link cell is not a non-empty string, of the whole resolution. *)
Theorem C10_first_attachment_decides :
  (forall (first : JsValue) (rest : list JsValue),
      truthy (optUrl first) = false ->
      firstAttachmentUrl (JsArray (first :: rest)) = JsUndefined
      /\ forall link, truthy (stringOrUndefined link) = false ->
                      resolveUrl link (JsArray (first :: rest)) = JsUndefined)
  /\ (forall file : JsValue,
         (forall l, file <> JsArray l) ->
         firstAttachmentUrl file = JsUndefined
         /\ forall link, truthy (stringOrUndefined link) = false ->
                         resolveUrl link file = JsUndefined).
Proof.
  split.
  - intros first rest H.
    assert (E : firstAttachmentUrl (JsArray (first :: rest)) = JsUndefined).
    { rewrite firstAttachmentUrl_cons. unfold or. now rewrite H. }
    split; [exact E|].
    intros link Hl. now rewrite (resolveUrl_without_link _ _ Hl).
  - intros file H.
    assert (E : firstAttachmentUrl file = JsUndefined).
    { unfold firstAttachmentUrl, or.
      destruct file as [| |b|z|s|l|o]; simpl; try reflexivity.
      - destruct b; reflexivity.
      - destruct (negb (z =? 0)%Z); reflexivity.
      - destruct (negb (isEmptyString s)); reflexivity.
      - exfalso. exact (H l eq_refl). }
    split; [exact E|].
    intros link Hl. now rewrite (resolveUrl_without_link _ _ Hl).
Qed.

(* ===================================================================== *)
(** ** Pages                                                              *)
(* ===================================================================== *)

Section Pages.
Context {A : Type}.

Lemma chunkFuel_concat (n : nat) :
  1 <= n ->
  forall fuel (l : list A),
    List.length l <= fuel -> List.concat (chunkFuel fuel n l) = l.
Proof.
  intros Hn. induction fuel as [|fuel IH]; intros l Hl.
  - destruct l; [reflexivity | simpl in Hl; lia].
  - destruct l as [|x l]; [reflexivity|].
    cbn [chunkFuel List.concat]. rewrite IH.
    + apply firstn_skipn.
    + rewrite length_skipn. cbn [List.length] in Hl |- *. lia.
Qed.

Lemma chunkFuel_bound (n : nat) :
  forall fuel (l : list A),
    Forall (fun pg => List.length pg <= n) (chunkFuel fuel n l).
Proof.
  induction fuel as [|fuel IH]; intros l; [constructor|].
  destruct l as [|x l]; [constructor|].
  cbn [chunkFuel]. constructor; [|apply IH].
  rewrite length_firstn. lia.
Qed.

Lemma concat_chunk (n : nat) (l : list A) :
  1 <= n -> List.concat (chunk n l) = l.
Proof. intros Hn. apply chunkFuel_concat; [exact Hn | apply le_n]. Qed.

End Pages.

Lemma pagesOf_concat (st : Store) (tbl : string) (q : SelectParams) :
  1 <= pageLimit q -> List.concat (pagesOf st tbl q) = resultSet st tbl q.
Proof.
  intros H. unfold pagesOf.
  pose proof (concat_chunk (pageLimit q) (resultSet st tbl q) H) as E.
  destruct (chunk (pageLimit q) (resultSet st tbl q)); [|exact E].
  simpl in *. exact E.
Qed.

Lemma pagesOf_bound (st : Store) (tbl : string) (q : SelectParams) :
  Forall (fun pg => List.length pg <= pageLimit q) (pagesOf st tbl q).
Proof.
  unfold pagesOf.
  pose proof (chunkFuel_bound (pageLimit q)
                (List.length (resultSet st tbl q)) (resultSet st tbl q)) as H.
  fold (chunk (pageLimit q) (resultSet st tbl q)) in H.
  destruct (chunk (pageLimit q) (resultSet st tbl q)); [|exact H].
  constructor; [apply Nat.le_0_l | constructor].
Qed.

(* ===================================================================== *)
(** ** Queries run in the handler monad                                   *)
(* ===================================================================== *)

Lemma addRequests_nil (w : World) : addRequests w [] = w.
Proof. destruct w. unfold addRequests. simpl. now rewrite app_nil_r. Qed.

Lemma addRequests_app (w : World) (a b : list PageRequest) :
  addRequests (addRequests w a) b = addRequests w (a ++ b).
Proof. unfold addRequests. simpl. now rewrite app_assoc. Qed.

Lemma eachPage_run (st : Store) (tbl : string) (q : SelectParams)
    (pages : list (list AirtableRecord)) :
  forall i acc w,
    queryRun st tbl q (acc ++ List.concat pages) w (eachPage st tbl q pages i acc w).
Proof.
  induction pages as [|pg more IH]; intros i acc w.
  - exists []. split; [constructor|]. left.
    simpl. rewrite app_nil_r, addRequests_nil. split; [reflexivity | constructor].
  - cbn [eachPage]. unfold bind, roundTrip.
    destruct (failure st (mkPageRequest tbl q i)) as [msg|] eqn:F.
    + exists [mkPageRequest tbl q i].
      split; [constructor; [split; reflexivity | constructor]|].
      right. exists msg. split; [reflexivity|]. constructor. exact F.
    + destruct (IH (S i) (acc ++ pg)
                  (mkWorld (requests w ++ [mkPageRequest tbl q i]) (console w)))
        as [rqs [Hq Hout]].
      exists (mkPageRequest tbl q i :: rqs).
      split; [constructor; [split; reflexivity | exact Hq]|].
      change (mkWorld (requests w ++ [mkPageRequest tbl q i]) (console w))
        with (addRequests w [mkPageRequest tbl q i]) in *.
      rewrite addRequests_app in Hout. simpl app in Hout.
      destruct Hout as [[E Hs] | [msg [E Hf]]].
      * left. split.
        -- rewrite E. simpl. now rewrite <- app_assoc.
        -- constructor; [exact F | exact Hs].
      * right. exists msg. split; [exact E|]. now constructor 2.
Qed.

Lemma all_run (st : Store) (tbl : string) (q : SelectParams) (w : World) :
  1 <= pageLimit q ->
  queryRun st tbl q (resultSet st tbl q) w (all st tbl q w).
Proof.
  intros H. unfold all. rewrite <- (pagesOf_concat st tbl q H).
  apply (eachPage_run st tbl q (pagesOf st tbl q) 0 []).
Qed.

Lemma settle_all (st : Store) (tbl : string) (q : SelectParams) (w : World) :
  1 <= pageLimit q ->
  exists rqs o,
    settle (all st tbl q) w = (Return o, addRequests w rqs) /\
    Forall (issuedFor tbl q) rqs /\
    ((o = Return (resultSet st tbl q) /\ Forall (succeeds st) rqs)
     \/ (exists msg, o = Throw (UpstreamError msg)
                     /\ Exists (failsWith st msg) rqs)).
Proof.
  intros H. destruct (all_run st tbl q w H) as [rqs [Hq Hout]].
  unfold settle.
  destruct Hout as [[E Hs] | [msg [E Hf]]]; rewrite E.
  - exists rqs, (Return (resultSet st tbl q)). auto.
  - exists rqs, (Throw (UpstreamError msg)).
    split; [reflexivity|]. split; [exact Hq|]. right. now exists msg.
Qed.

Lemma issuedFor_In (tbl : string) (q : SelectParams)
    (known : list (string * SelectParams)) (rqs : list PageRequest) :
  In (tbl, q) known ->
  Forall (issuedFor tbl q) rqs ->
  Forall (fun rq => In (table rq, params rq) known) rqs.
Proof.
  intros Hin. apply Forall_impl. intros rq [-> ->]. exact Hin.
Qed.

Lemma promiseAll4_run (st : Store) (t1 t2 t3 t4 : string)
    (q1 q2 q3 q4 : SelectParams) (w : World) :
  1 <= pageLimit q1 -> 1 <= pageLimit q2 ->
  1 <= pageLimit q3 -> 1 <= pageLimit q4 ->
  exists rqs,
    Forall (fun rq => In (table rq, params rq)
                         [(t1, q1); (t2, q2); (t3, q3); (t4, q4)]) rqs /\
    ((promiseAll4 (all st t1 q1) (all st t2 q2) (all st t3 q3) (all st t4 q4) w
      = (Return (resultSet st t1 q1, resultSet st t2 q2,
                 resultSet st t3 q3, resultSet st t4 q4),
         addRequests w rqs)
      /\ Forall (succeeds st) rqs)
     \/ (exists msg,
           promiseAll4 (all st t1 q1) (all st t2 q2) (all st t3 q3) (all st t4 q4) w
           = (Throw (UpstreamError msg), addRequests w rqs)
           /\ Exists (failsWith st msg) rqs)).
Proof.
  intros H1 H2 H3 H4. unfold promiseAll4, bind.
  destruct (settle_all st t1 q1 w H1) as [r1 [o1 [E1 [I1 C1]]]].
  rewrite E1.
  destruct (settle_all st t2 q2 (addRequests w r1) H2) as [r2 [o2 [E2 [I2 C2]]]].
  rewrite E2.
  destruct (settle_all st t3 q3 (addRequests (addRequests w r1) r2) H3)
    as [r3 [o3 [E3 [I3 C3]]]].
  rewrite E3.
  destruct (settle_all st t4 q4
              (addRequests (addRequests (addRequests w r1) r2) r3) H4)
    as [r4 [o4 [E4 [I4 C4]]]].
  rewrite E4. rewrite !addRequests_app.
  exists (r1 ++ r2 ++ r3 ++ r4).
  split.
  { repeat (apply Forall_app; split);
      [ apply (issuedFor_In t1 q1) | apply (issuedFor_In t2 q2)
      | apply (issuedFor_In t3 q3) | apply (issuedFor_In t4 q4) ];
      simpl; auto. }
  destruct C1 as [[-> S1] | [m1 [-> F1]]];
    [|right; exists m1; split; [reflexivity | rewrite !Exists_app; auto]].
  destruct C2 as [[-> S2] | [m2 [-> F2]]];
    [|right; exists m2; split; [reflexivity | rewrite !Exists_app; auto]].
  destruct C3 as [[-> S3] | [m3 [-> F3]]];
    [|right; exists m3; split; [reflexivity | rewrite !Exists_app; auto]].
  destruct C4 as [[-> S4] | [m4 [-> F4]]];
    [|right; exists m4; split; [reflexivity | rewrite !Exists_app; auto]].
  left. split; [reflexivity|].
  repeat (apply Forall_app; split); assumption.
Qed.

Lemma overviewOf_cases (v : JsValue) :
  (exists overview, forall w, overviewOf v w = (Return overview, w))
  \/ (exists e, forall w, overviewOf v w = (Throw (TypeError e), w)).
Proof.
  unfold overviewOf. destruct (truthy v).
  - destruct v; try (right; eexists; intros w; reflexivity).
    left. eexists. intros w. reflexivity.
  - left. exists []. intros w. reflexivity.
Qed.

(* ===================================================================== *)
(** ** The ways through the handler                                       *)
(* ===================================================================== *)

Ltac page_limit :=
  cbv [pageLimit pageSize listingQuery modulesQuery manualsQuery formsQuery
       resourcesQuery]; lia.

Lemma listing_path (env : Env) (st : Store) (req : Request)
    (pairs : list (string * string)) :
  isGet (method req) = true ->
  missing (AIRTABLE_API_KEY env) || missing (AIRTABLE_BASE_ID env) = false ->
  searchParams req = Some pairs ->
  slugOf (queryOf pairs) = "" ->
  exists o rqs,
    listing st emptyWorld = (o, mkWorld rqs []) /\ Path env st req o rqs.
Proof.
  intros Hm Hc Hp Hs. unfold listing, bind.
  destruct (all_run st "ClinicalPrograms" listingQuery emptyWorld)
    as [rqs [Hq [[E Hok] | [msg [E Hf]]]]];
    [page_limit | |]; rewrite E.
  - exists (Return (listingResponse st)), rqs. split; [reflexivity|].
    now apply (PathListing env st req pairs).
  - exists (Throw (UpstreamError msg)), rqs. split; [reflexivity|].
    now apply (PathListingFailed env st req pairs).
Qed.

Lemma detail_path (env : Env) (st : Store) (req : Request)
    (pairs : list (string * string)) :
  isGet (method req) = true ->
  missing (AIRTABLE_API_KEY env) || missing (AIRTABLE_BASE_ID env) = false ->
  searchParams req = Some pairs ->
  slugOf (queryOf pairs) <> "" ->
  exists o rqs,
    detail st (slugOf (queryOf pairs)) emptyWorld = (o, mkWorld rqs []) /\
    Path env st req o rqs.
Proof.
  intros Hm Hc Hp Hs. set (slug := slugOf (queryOf pairs)) in *.
  unfold detail, bind, firstPage, roundTrip.
  fold (parentRequest slug). fold (parentRecords st slug).
  destruct (failure st (parentRequest slug)) as [msg|] eqn:F.
  { exists (Throw (UpstreamError msg)), [parentRequest slug].
    split; [reflexivity|]. now apply (PathParentFailed env st req pairs). }
  destruct (parentRecords st slug) as [|p rest] eqn:R.
  { exists (Return programNotFound), [parentRequest slug].
    split; [reflexivity|]. now apply (PathNotFound env st req pairs). }
  destruct (overviewOf_cases (or (get p "programOverview") (JsString "")))
    as [[overview Ho] | [e He]].
  2:{ rewrite He. exists (Throw (TypeError e)), [parentRequest slug].
      split; [reflexivity|]. now apply (PathOverview env st req pairs p rest). }
  rewrite Ho.
  match goal with
  | |- context [promiseAll4 ?a ?b ?c ?d ?w] =>
      destruct (promiseAll4_run st
                  "TrainingModules" "ProtocolManuals"
                  "DocumentationForms" "AdditionalResources"
                  (modulesQuery (escapeFormulaString slug))
                  (manualsQuery (escapeFormulaString slug))
                  (formsQuery (escapeFormulaString slug))
                  (resourcesQuery (escapeFormulaString slug)) w)
        as [rqs [Hq [[E Hok] | [msg [E Hf]]]]];
      [page_limit | page_limit | page_limit | page_limit | |]
  end; rewrite E.
  - exists (Return (detailResponse st slug p overview)),
           (parentRequest slug :: rqs).
    split; [reflexivity|].
    now apply (PathDetail env st req pairs p rest).
  - exists (Throw (UpstreamError msg)), (parentRequest slug :: rqs).
    split; [reflexivity|].
    now apply (PathChildFailed env st req pairs p rest).
Qed.

Lemma tryBlock_path (env : Env) (st : Store) (req : Request) :
  exists o rqs,
    tryBlock env st req emptyWorld = (o, mkWorld rqs []) /\
    Path env st req o rqs.
Proof.
  unfold tryBlock.
  destruct (isGet (method req)) eqn:Hm; simpl negb; cbv iota.
  2:{ exists (Return methodNotAllowed), []. split; [reflexivity|].
      now constructor. }
  destruct (missing (AIRTABLE_API_KEY env) || missing (AIRTABLE_BASE_ID env))
    eqn:Hc.
  { exists (Return notConfigured), []. split; [reflexivity|].
    now apply PathConfig. }
  unfold bind, getQuery.
  destruct (searchParams req) as [pairs|] eqn:Hp.
  2:{ exists (Throw (TypeError "Invalid URL")), []. split; [reflexivity|].
      now apply PathUrl. }
  unfold ret.
  destruct (isEmptyString (slugOf (queryOf pairs))) eqn:Hs.
  - apply (listing_path env st req pairs); auto.
    now apply isEmptyString_true.
  - apply (detail_path env st req pairs); auto.
    now apply isEmptyString_false.
Qed.

(** The response and the world of a run, from the way through the [try]
    block. *)
Lemma run_path (env : Env) (st : Store) (req : Request) :
  exists o rqs,
    Path env st req o rqs /\
    requests (snd (run env st req)) = rqs /\
    match o with
    | Return res => run env st req = (res, mkWorld rqs [])
    | Throw err => fst (run env st req) = internalServerError
    end.
Proof.
  destruct (tryBlock_path env st req) as [o [rqs [E HP]]].
  exists o, rqs. split; [exact HP|].
  unfold run, handler. rewrite E.
  destruct o; simpl; auto.
Qed.

(* ===================================================================== *)
(** ** The store's sort                                                   *)
(* ===================================================================== *)

Section KeySort.
Context {A : Type} (key : A -> option Z).

Lemma keyLeb_total (a b : option Z) : keyLeb a b = false -> keyLeb b a = true.
Proof.
  destruct a as [x|], b as [y|]; simpl; try congruence.
  intros H. apply Z.leb_gt in H. apply Z.leb_le. lia.
Qed.

Lemma keyLeb_trans (a b c : option Z) :
  keyLeb a b = true -> keyLeb b c = true -> keyLeb a c = true.
Proof.
  destruct a as [x|], b as [y|], c as [z|]; simpl; try congruence.
  intros H1 H2. apply Z.leb_le in H1, H2. apply Z.leb_le. lia.
Qed.

Lemma sameKey_leb (a b : option Z) : sameKey a b = true -> keyLeb b a = true.
Proof.
  destruct a as [x|], b as [y|]; simpl; try congruence.
  intros H. apply Z.eqb_eq in H. apply Z.leb_le. lia.
Qed.

Lemma sameKey_trans (k a b : option Z) :
  sameKey k a = true -> sameKey k b = sameKey a b.
Proof.
  destruct k as [x|], a as [y|], b as [z|]; simpl; try congruence.
  intros H. apply Z.eqb_eq in H. now subst.
Qed.

Lemma insert_perm (x : A) (l : list A) :
  Permutation (insert (lebBy key) x l) (x :: l).
Proof.
  induction l as [|y l IH]; simpl; [reflexivity|].
  destruct (lebBy key x y); [reflexivity|].
  rewrite IH. apply perm_swap.
Qed.

Lemma insertionSort_perm (l : list A) : Permutation (insertionSort (lebBy key) l) l.
Proof.
  induction l as [|x l IH]; simpl; [reflexivity|].
  rewrite insert_perm. now constructor.
Qed.

Lemma insert_hd (x a : A) (l : list A) :
  leBy key a x -> HdRel (leBy key) a l -> HdRel (leBy key) a (insert (lebBy key) x l).
Proof.
  intros Hax H. destruct l as [|y l]; simpl; [now constructor|].
  destruct (lebBy key x y); constructor; [exact Hax|].
  now inversion H.
Qed.

Lemma insert_sorted (x : A) (l : list A) :
  Sorted (leBy key) l -> Sorted (leBy key) (insert (lebBy key) x l).
Proof.
  induction l as [|y l IH]; intros H; simpl.
  - repeat constructor.
  - destruct (lebBy key x y) eqn:E.
    + constructor; [exact H | now constructor].
    + inversion H as [|? ? Hs Hh]; subst.
      constructor; [now apply IH|].
      apply insert_hd; [|exact Hh].
      apply keyLeb_total, E.
Qed.

Lemma insertionSort_sorted (l : list A) : Sorted (leBy key) (insertionSort (lebBy key) l).
Proof.
  induction l as [|x l IH]; simpl; [constructor | now apply insert_sorted].
Qed.

Lemma insertionSort_strongly (l : list A) :
  StronglySorted (leBy key) (insertionSort (lebBy key) l).
Proof.
  apply Sorted_StronglySorted; [|apply insertionSort_sorted].
  intros a b c. apply keyLeb_trans.
Qed.

(** Inserting [x] puts it ahead of the records that tie with it. *)
Lemma insert_stable (k : option Z) (x : A) (l : list A) :
  filter (fun a => sameKey k (key a)) (insert (lebBy key) x l)
  = filter (fun a => sameKey k (key a)) (x :: l).
Proof.
  induction l as [|y l IH]; [reflexivity|].
  cbn [insert]. destruct (lebBy key x y) eqn:E; [reflexivity|].
  cbn [filter] in *. rewrite IH.
  destruct (sameKey k (key x)) eqn:Kx; [|reflexivity].
  destruct (sameKey k (key y)) eqn:Ky; [|reflexivity].
  exfalso. rewrite (sameKey_trans _ _ _ Ky) in Kx.
  apply sameKey_leb in Kx. unfold lebBy in E. congruence.
Qed.

Lemma insertionSort_stable (k : option Z) (l : list A) :
  filter (fun a => sameKey k (key a)) (insertionSort (lebBy key) l)
  = filter (fun a => sameKey k (key a)) l.
Proof.
  induction l as [|x l IH]; [reflexivity|].
  cbn [insertionSort]. rewrite insert_stable.
  cbn [filter]. now rewrite IH.
Qed.

End KeySort.

(* ===================================================================== *)
(** ** Escaping of the slug in the filter formulas                        *)
(* ===================================================================== *)

Lemma scanLiteral_escape (slug after : string) :
  match after with
  | String c _ => Ascii.eqb c quote = false
  | EmptyString => True
  end ->
  scanLiteral (escapeFormulaString slug ++ String quote after)
  = Some (slug, after).
Proof.
  intros Hafter. induction slug as [|c slug IH].
  - cbn [escapeFormulaString append scanLiteral].
    rewrite Ascii.eqb_refl.
    destruct after as [|d after]; [reflexivity|]. now rewrite Hafter.
  - cbn [escapeFormulaString]. destruct (Ascii.eqb c quote) eqn:E.
    + apply Ascii.eqb_eq in E. subst c.
      cbn [append scanLiteral]. rewrite Ascii.eqb_refl.
      now rewrite IH.
    + cbn [append scanLiteral]. rewrite E. now rewrite IH.
Qed.

Lemma readParentLiteral_escape (slug : string) :
  readParentLiteral (parentFormula (escapeFormulaString slug))
  = Some (slug, "").
Proof.
  change (scanLiteral (escapeFormulaString slug ++ String quote "")
          = Some (slug, "")).
  now apply scanLiteral_escape.
Qed.

Lemma readChildLiteral_escape (slug : string) :
  readLiteral (childFormula (escapeFormulaString slug))
  = Some (slug, " IN {programSlug}").
Proof.
  change (scanLiteral (escapeFormulaString slug
                       ++ String quote " IN {programSlug}")
          = Some (slug, " IN {programSlug}")).
  now apply scanLiteral_escape.
Qed.

Lemma path_formulas (env : Env) (st : Store) (req : Request)
    (o : Outcome Response) (rqs : list PageRequest) :
  Path env st req o rqs ->
  forall rq f,
    In rq rqs -> filterByFormula (params rq) = Some f ->
    exists pairs,
      searchParams req = Some pairs /\
      (f = parentFormula (escapeFormulaString (slugOf (queryOf pairs)))
       \/ f = childFormula (escapeFormulaString (slugOf (queryOf pairs)))).
Proof.
  assert (Hlist : forall l rq f,
             Forall (issuedFor "ClinicalPrograms" listingQuery) l ->
             In rq l -> filterByFormula (params rq) = Some f -> False).
  { intros l rq f Hall Hin Hf. rewrite Forall_forall in Hall.
    destruct (Hall rq Hin) as [_ E]. rewrite E in Hf. discriminate. }
  assert (Hchild : forall slug l rq f,
             Forall (isChildRequest slug) l ->
             In rq l -> filterByFormula (params rq) = Some f ->
             f = childFormula (escapeFormulaString slug)).
  { intros slug l rq f Hall Hin Hf. rewrite Forall_forall in Hall.
    specialize (Hall rq Hin). unfold isChildRequest, childQueries in Hall.
    simpl in Hall.
    destruct Hall as [E | [E | [E | [E | []]]]];
      injection E as _ E; rewrite <- E in Hf; simpl in Hf; congruence. }
  assert (Hparent : forall slug f,
             filterByFormula (params (parentRequest slug)) = Some f ->
             f = parentFormula (escapeFormulaString slug)).
  { intros slug f Hf. simpl in Hf. congruence. }
  intros HP rq f Hin Hf.
  destruct HP; try (now destruct Hin); try (exfalso; now eauto);
    exists pairs; (split; [assumption|]);
    (destruct Hin as [<- | Hin]; [left; now apply Hparent|]);
    try (now destruct Hin); right; eapply Hchild; eauto.
Qed.

(** C1: every filter formula the handler sends to the store is the parent
    formula or the child formula built from the slug of the request after
    [escapeFormulaString], which writes each single quote twice and leaves
    every other character, the backslash included, as it is. Read with the
    doubled-quote syntax of literals, the parent formula is its fixed
    left-hand side followed by one literal that denotes the slug and by
    nothing else, and the child formula is one literal that denotes the
    slug followed by its fixed right-hand side: no character of the slug
    ends the literal or is read as filter syntax. *)
Theorem C1_slug_is_one_escaped_literal (env : Env) (st : Store) (req : Request) :
  (forall rq f,
      In rq (requests (snd (run env st req))) ->
      filterByFormula (params rq) = Some f ->
      exists pairs,
        searchParams req = Some pairs /\
        (f = parentFormula (escapeFormulaString (slugOf (queryOf pairs)))
         \/ f = childFormula (escapeFormulaString (slugOf (queryOf pairs)))))
  /\ (forall c s,
         escapeFormulaString (String c s)
         = ((if Ascii.eqb c quote then "''" else String c "")
              ++ escapeFormulaString s)%string)
  /\ (forall slug,
         readParentLiteral (parentFormula (escapeFormulaString slug))
         = Some (slug, "")
         /\ readLiteral (childFormula (escapeFormulaString slug))
            = Some (slug, " IN {programSlug}")).
Proof.
  split; [|split].
  - destruct (run_path env st req) as [o [rqs [HP [E _]]]].
    rewrite E. apply (path_formulas env st req o rqs HP).
  - intros c s. cbn [escapeFormulaString].
    destruct (Ascii.eqb c quote); reflexivity.
  - intros slug. split;
      [apply readParentLiteral_escape | apply readChildLiteral_escape].
Qed.

(* ===================================================================== *)
(** ** Configuration, listing path, missing parent                        *)
(* ===================================================================== *)

(** C6: when the access key or the base identifier is absent from the
    environment (or empty), a GET request, listing or detail alike, is
    answered 500 with the message about the configuration, and the run
    leaves the world as it found it: no round-trip to the store is made. *)
Theorem C6_missing_configuration (env : Env) (st : Store) (req : Request) :
  isGet (method req) = true ->
  missing (AIRTABLE_API_KEY env) || missing (AIRTABLE_BASE_ID env) = true ->
  run env st req = (notConfigured, emptyWorld)
  /\ statusCode notConfigured = 500
  /\ requests emptyWorld = [].
Proof.
  intros Hm Hc. split; [|split; reflexivity].
  unfold run, handler, tryBlock. now rewrite Hm, Hc.
Qed.

Lemma parentRecords_no_match (st : Store) (slug : string) :
  rows st "ClinicalPrograms"
       (Some (parentFormula (escapeFormulaString slug))) = [] ->
  parentRecords st slug = [].
Proof.
  intros H. unfold parentRecords, pagesOf, resultSet.
  cbn [filterByFormula parentQuery sort sortRows fold_right]. now rewrite H.
Qed.

(** C3: for a configured GET request with a slug, when the store holds no
    program that satisfies the parent filter and the lookup goes through,
    the response is 404 with the error body, and the only round-trip of the
    run is the parent lookup: none of the four child queries is sent. *)
Theorem C3_unknown_slug_404_without_child_fetches
    (env : Env) (st : Store) (req : Request) (pairs : list (string * string)) :
  isGet (method req) = true ->
  missing (AIRTABLE_API_KEY env) || missing (AIRTABLE_BASE_ID env) = false ->
  searchParams req = Some pairs ->
  slugOf (queryOf pairs) <> "" ->
  rows st "ClinicalPrograms"
       (Some (parentFormula (escapeFormulaString (slugOf (queryOf pairs))))) = [] ->
  succeeds st (parentRequest (slugOf (queryOf pairs))) ->
  run env st req
  = (programNotFound, mkWorld [parentRequest (slugOf (queryOf pairs))] [])
  /\ statusCode programNotFound = 404
  /\ body programNotFound = errorBody "Program not found"
  /\ Forall (fun rq => ~ isChildRequest (slugOf (queryOf pairs)) rq)
            [parentRequest (slugOf (queryOf pairs))].
Proof.
  intros Hm Hc Hp Hs Hrows Hok.
  split; [|split; [reflexivity | split; [reflexivity|]]].
  - unfold run, handler, tryBlock, bind, getQuery, ret.
    rewrite Hm, Hc, Hp. cbv iota. simpl negb. cbv iota.
    destruct (isEmptyString (slugOf (queryOf pairs))) eqn:E;
      [apply isEmptyString_true in E; contradiction|].
    unfold detail, bind, firstPage, roundTrip.
    fold (parentRequest (slugOf (queryOf pairs))).
    fold (parentRecords st (slugOf (queryOf pairs))).
    unfold succeeds in Hok. rewrite Hok.
    rewrite (parentRecords_no_match _ _ Hrows). reflexivity.
  - constructor; [|constructor].
    unfold isChildRequest, childQueries. simpl.
    intros [E | [E | [E | [E | []]]]]; discriminate E.
Qed.

Lemma slugOf_blank (query : list (string * string)) :
  param "slug" query = None
  \/ (exists v, param "slug" query = Some v /\ blank v = true) ->
  slugOf query = "".
Proof.
  unfold slugOf. intros [-> | [v [-> Hv]]]; [reflexivity|].
  destruct (isEmptyString v); [reflexivity | now apply trim_blank].
Qed.

Lemma succeeds_not_fails (st : Store) (rqs : list PageRequest) (msg : string) :
  Forall (succeeds st) rqs -> Exists (failsWith st msg) rqs -> False.
Proof.
  intros Hall Hex. apply Exists_exists in Hex as [rq [Hin Hf]].
  rewrite Forall_forall in Hall. specialize (Hall rq Hin).
  unfold succeeds, failsWith in *. congruence.
Qed.

(** C9: for a configured GET request whose [slug] parameter is absent,
    empty or made of white space only, the handler takes the listing path:
    every round-trip of the run is one of the listing query on the programs
    table, the status is never 404, and when these round-trips go through
    the response is the 200 listing with its [items] array. *)
Theorem C9_blank_slug_lists (env : Env) (st : Store) (req : Request)
    (pairs : list (string * string)) :
  isGet (method req) = true ->
  missing (AIRTABLE_API_KEY env) || missing (AIRTABLE_BASE_ID env) = false ->
  searchParams req = Some pairs ->
  param "slug" (queryOf pairs) = None
  \/ (exists v, param "slug" (queryOf pairs) = Some v /\ blank v = true) ->
  Forall (issuedFor "ClinicalPrograms" listingQuery)
         (requests (snd (run env st req)))
  /\ statusCode (fst (run env st req)) <> 404
  /\ (Forall (succeeds st) (requests (snd (run env st req))) ->
      fst (run env st req) = listingResponse st
      /\ body (listingResponse st)
         = JsObject [("items",
             JsArray (map listItem
                        (resultSet st "ClinicalPrograms" listingQuery)))]).
Proof.
  intros Hm Hc Hp Hblank. apply slugOf_blank in Hblank.
  destruct (run_path env st req) as [o [rqs [HP [E R]]]].
  rewrite E.
  destruct HP; try congruence;
    match goal with
    | H1 : searchParams req = Some ?a, H2 : searchParams req = Some ?b |- _ =>
        rewrite H1 in H2; injection H2 as <-
    end; try contradiction.
  - rewrite R. simpl. repeat split; auto. discriminate.
  - rewrite R. split; [assumption|]. split; [discriminate|].
    intros Hall. exfalso. eapply succeeds_not_fails; eauto.
Qed.

(* ===================================================================== *)
(** ** Upstream failures                                                  *)
(* ===================================================================== *)

Lemma path_failure (env : Env) (st : Store) (req : Request)
    (o : Outcome Response) (rqs : list PageRequest) :
  Path env st req o rqs ->
  Exists (fun rq => failure st rq <> None) rqs ->
  exists err, o = Throw err.
Proof.
  assert (Hno : forall l, Forall (succeeds st) l ->
                          Exists (fun rq => failure st rq <> None) l -> False).
  { intros l Hall Hex. apply Exists_exists in Hex as [rq [Hin Hf]].
    rewrite Forall_forall in Hall. exact (Hf (Hall rq Hin)). }
  intros HP Hex.
  destruct HP; try (eexists; reflexivity); exfalso;
    try (now inversion Hex); try (now eapply Hno; eauto).
  inversion Hex as [? ? Hhd | ? ? Htl]; subst;
    [contradiction | now eapply Hno; eauto].
Qed.

(** C8: whenever a round-trip to the store fails during a run, the response
    is 500 with the fixed body [{ error: 'Internal Server Error' }]; so two
    runs in which some round-trip failed, whatever their requests, stores
    and error messages, end with the same response, and the message of the
    upstream error is no part of it. *)
Theorem C8_upstream_failure_is_generic
    (env env' : Env) (st st' : Store) (req req' : Request) :
  Exists (fun rq => failure st rq <> None) (requests (snd (run env st req))) ->
  Exists (fun rq => failure st' rq <> None)
         (requests (snd (run env' st' req'))) ->
  fst (run env st req) = internalServerError
  /\ statusCode internalServerError = 500
  /\ body internalServerError = errorBody "Internal Server Error"
  /\ fst (run env st req) = fst (run env' st' req').
Proof.
  assert (H : forall e s r,
             Exists (fun rq => failure s rq <> None)
                    (requests (snd (run e s r))) ->
             fst (run e s r) = internalServerError).
  { intros e s r Hex.
    destruct (run_path e s r) as [o [rqs [HP [E R]]]].
    rewrite E in Hex.
    destruct (path_failure e s r o rqs HP Hex) as [err ->]. exact R. }
  intros H1 H2. rewrite (H _ _ _ H1), (H _ _ _ H2). repeat split.
Qed.

(* ===================================================================== *)
(** ** Sizes and order of the sequences in the responses                  *)
(* ===================================================================== *)

Lemma insert_length {A : Type} (leb : A -> A -> bool) (x : A) (l : list A) :
  List.length (insert leb x l) = S (List.length l).
Proof.
  induction l as [|y l IH]; simpl; [reflexivity|].
  destruct (leb x y); simpl; [reflexivity | now rewrite IH].
Qed.

Lemma insertionSort_length {A : Type} (leb : A -> A -> bool) (l : list A) :
  List.length (insertionSort leb l) = List.length l.
Proof.
  induction l as [|x l IH]; simpl; [reflexivity|].
  now rewrite insert_length, IH.
Qed.

Lemma sortRows_length (specs : list (string * Direction))
    (l : list AirtableRecord) :
  List.length (sortRows specs l) = List.length l.
Proof.
  induction specs as [|spec specs IH]; simpl; [reflexivity|].
  now rewrite insertionSort_length.
Qed.

Lemma resultSet_length (st : Store) (tbl : string) (q : SelectParams) :
  maxRecords q = None ->
  List.length (resultSet st tbl q)
  = List.length (rows st tbl (filterByFormula q)).
Proof.
  intros H. unfold resultSet. rewrite H. simpl truncate.
  now rewrite length_map, sortRows_length.
Qed.

Lemma firstPage_length (st : Store) (tbl : string) (q : SelectParams) :
  List.length (hd [] (pagesOf st tbl q)) <= List.length (resultSet st tbl q).
Proof.
  unfold pagesOf, chunk.
  destruct (resultSet st tbl q) as [|r l]; [apply le_n|].
  cbn [List.length chunkFuel hd]. rewrite length_firstn.
  cbn [List.length]. lia.
Qed.

Lemma parentRecords_length (st : Store) (slug : string) :
  List.length (parentRecords st slug) <= 1.
Proof.
  unfold parentRecords.
  etransitivity; [apply firstPage_length|].
  unfold resultSet. rewrite length_map.
  cbn [maxRecords parentQuery truncate]. apply firstn_le_length.
Qed.

(** The 200 responses of a run. *)
Lemma run_200 (env : Env) (st : Store) (req : Request) :
  statusCode (fst (run env st req)) = 200 ->
  exists pairs,
    searchParams req = Some pairs /\
    ((slugOf (queryOf pairs) = "" /\ fst (run env st req) = listingResponse st)
     \/ (slugOf (queryOf pairs) <> "" /\
         exists p overview,
           fst (run env st req)
           = detailResponse st (slugOf (queryOf pairs)) p overview)).
Proof.
  intros H. destruct (run_path env st req) as [o [rqs [HP [_ R]]]].
  destruct HP; try (rewrite R in H; discriminate H).
  - exists pairs. split; [assumption|]. left. rewrite R. auto.
  - exists pairs. split; [assumption|]. right.
    split; [assumption|]. exists p, overview. now rewrite R.
Qed.

(** C2, as the code has it: [pageSize] bounds each page the store returns
    (50 for the listing; 100, 100, 200 and 100 for modules, manuals, forms
    and resources) and [maxRecords] bounds the parent lookup to one record;
    the sequences of a 200 response are not capped: the listing holds one
    item per program of the store, and each child sequence of a detail
    response holds one item per matching record of its table, all pages
    together. *)
Theorem C2_pages_capped_sequences_complete
    (env : Env) (st : Store) (req : Request) :
  statusCode (fst (run env st req)) = 200 ->
  (forall tbl q,
      Forall (fun pg => List.length pg <= pageLimit q) (pagesOf st tbl q))
  /\ pageLimit listingQuery = 50
  /\ (forall esc,
         pageLimit (modulesQuery esc) = 100
         /\ pageLimit (manualsQuery esc) = 100
         /\ pageLimit (formsQuery esc) = 200
         /\ pageLimit (resourcesQuery esc) = 100)
  /\ (forall slug, List.length (parentRecords st slug) <= 1)
  /\ ((fst (run env st req) = listingResponse st
       /\ List.length (arrayAt "items" (body (fst (run env st req))))
          = List.length (rows st "ClinicalPrograms" None))
      \/ (exists pairs p overview,
             searchParams req = Some pairs /\
             fst (run env st req)
             = detailResponse st (slugOf (queryOf pairs)) p overview /\
             List.length (arrayAt "modules" (body (fst (run env st req))))
             = List.length
                 (rows st "TrainingModules"
                    (Some (childFormula
                             (escapeFormulaString (slugOf (queryOf pairs)))))) /\
             List.length (arrayAt "manuals" (body (fst (run env st req))))
             = List.length
                 (rows st "ProtocolManuals"
                    (Some (childFormula
                             (escapeFormulaString (slugOf (queryOf pairs)))))) /\
             List.length (arrayAt "forms" (body (fst (run env st req))))
             = List.length
                 (rows st "DocumentationForms"
                    (Some (childFormula
                             (escapeFormulaString (slugOf (queryOf pairs)))))) /\
             List.length (arrayAt "resources" (body (fst (run env st req))))
             = List.length
                 (rows st "AdditionalResources"
                    (Some (childFormula
                             (escapeFormulaString (slugOf (queryOf pairs)))))))).
Proof.
  intros H.
  split; [intros tbl q; apply pagesOf_bound|].
  split; [reflexivity|].
  split; [intros esc; repeat split|].
  split; [apply parentRecords_length|].
  destruct (run_200 env st req H) as [pairs [Hp [[Hs E] | [Hs [p [ov E]]]]]].
  - left. split; [exact E|]. rewrite E.
    change (arrayAt "items" (body (listingResponse st)))
      with (map listItem (resultSet st "ClinicalPrograms" listingQuery)).
    rewrite length_map. now apply resultSet_length.
  - right. exists pairs, p, ov. split; [exact Hp|]. split; [exact E|].
    rewrite E.
    set (slug := slugOf (queryOf pairs)).
    change (arrayAt "modules" (body (detailResponse st slug p ov)))
      with (map moduleItem
              (resultSet st "TrainingModules"
                 (modulesQuery (escapeFormulaString slug)))).
    change (arrayAt "manuals" (body (detailResponse st slug p ov)))
      with (map manualItem
              (resultSet st "ProtocolManuals"
                 (manualsQuery (escapeFormulaString slug)))).
    change (arrayAt "forms" (body (detailResponse st slug p ov)))
      with (map formItem
              (resultSet st "DocumentationForms"
                 (formsQuery (escapeFormulaString slug)))).
    change (arrayAt "resources" (body (detailResponse st slug p ov)))
      with (map resourceItem
              (resultSet st "AdditionalResources"
                 (resourcesQuery (escapeFormulaString slug)))).
    rewrite !length_map.
    repeat split; now apply resultSet_length.
Qed.

(** C7: in a 200 detail response the modules are the images, in the same
    order, of the matching records of the training-modules table put in
    ascending order of [sortOrder] (an empty cell first): the sequence of
    records is a rearrangement of the store's, every earlier record has a
    [sortOrder] at most that of every later one, and the records with one
    and the same [sortOrder] keep the relative order they have in the
    store. *)
Theorem C7_modules_sorted_and_stable
    (env : Env) (st : Store) (req : Request) (pairs : list (string * string)) :
  searchParams req = Some pairs ->
  slugOf (queryOf pairs) <> "" ->
  statusCode (fst (run env st req)) = 200 ->
  exists sorted,
    arrayAt "modules" (body (fst (run env st req)))
    = map moduleItem
        (map (project (selectFields
                         (modulesQuery
                            (escapeFormulaString (slugOf (queryOf pairs))))))
             sorted)
    /\ Permutation sorted
         (rows st "TrainingModules"
            (Some (childFormula (escapeFormulaString (slugOf (queryOf pairs))))))
    /\ StronglySorted sortOrderLe sorted
    /\ forall k,
         withSortOrder k sorted
         = withSortOrder k
             (rows st "TrainingModules"
                (Some (childFormula
                         (escapeFormulaString (slugOf (queryOf pairs)))))).
Proof.
  intros Hp Hs H.
  destruct (run_200 env st req H) as [pairs' [Hp' [[Hs' E] | [_ [p [ov E]]]]]];
    rewrite Hp in Hp'; injection Hp' as <-; [contradiction|].
  set (slug := slugOf (queryOf pairs)) in *.
  set (stored := rows st "TrainingModules"
                   (Some (childFormula (escapeFormulaString slug)))).
  exists (insertionSort
            (fun a b => keyLeb (sortKey "sortOrder" a) (sortKey "sortOrder" b))
            stored).
  split; [rewrite E; reflexivity|].
  split; [apply insertionSort_perm|].
  split; [apply (insertionSort_strongly (sortKey "sortOrder"))|].
  intros k. apply (insertionSort_stable (sortKey "sortOrder")).
Qed.

(** C2 fails as stated: with 51 programs in the store, the listing is
    fetched in two pages and the response holds 51 items. *)
Lemma C2_counterexample :
  statusCode (fst (run env0 bigStore getListing)) = 200
  /\ List.length (arrayAt "items" (body (fst (run env0 bigStore getListing))))
     = 51
  /\ ~ 51 <= 50.
Proof.
  split; [reflexivity|]. split; [vm_compute; reflexivity | lia].
Qed.

(* ===================================================================== *)
(** ** Instances on the sample stores                                     *)
(* ===================================================================== *)

Lemma C1_witness :
  readParentLiteral (parentFormula (escapeFormulaString "o'brien"))
  = Some ("o'brien", "")
  /\ readLiteral (childFormula (escapeFormulaString "x\' OR 1=1 OR '"))
     = Some ("x\' OR 1=1 OR '", " IN {programSlug}").
Proof.
  destruct (C1_slug_is_one_escaped_literal env0 smallStore (getDetail "o'brien"))
    as [_ [_ H]].
  split; [apply (H "o'brien") | apply (H "x\' OR 1=1 OR '")].
Defined.

Lemma C2_witness :
  statusCode (fst (run env0 bigStore getListing)) = 200
  /\ Forall (fun pg => List.length pg <= 50)
            (pagesOf bigStore "ClinicalPrograms" listingQuery)
  /\ List.length (parentRecords bigStore "p") <= 1
  /\ List.length (arrayAt "items" (body (fst (run env0 bigStore getListing))))
     = List.length (rows bigStore "ClinicalPrograms" None).
Proof.
  split; [reflexivity|].
  destruct (C2_pages_capped_sequences_complete env0 bigStore getListing eq_refl)
    as [Hpages [_ [_ [Hparent Hitems]]]].
  split; [apply (Hpages "ClinicalPrograms" listingQuery)|].
  split; [apply Hparent|].
  destruct Hitems as [[_ E] | [pairs [p [ov [Hp [E _]]]]]]; [exact E|].
  injection Hp as <-. vm_compute in E. discriminate E.
Defined.

Lemma C3_witness :
  run env0 smallStore (getDetail "zz")
  = (programNotFound,
     mkWorld [parentRequest (slugOf (queryOf [("slug", "zz")]))] []).
Proof.
  refine (proj1 (C3_unknown_slug_404_without_child_fetches
                   env0 smallStore (getDetail "zz") [("slug", "zz")]
                   eq_refl eq_refl eq_refl _ eq_refl eq_refl)).
  vm_compute. discriminate.
Defined.


Lemma C6_witness :
  run (mkEnv None (Some "appXXXX")) smallStore (getDetail "p")
  = (notConfigured, emptyWorld)
  /\ run (mkEnv (Some "keyXXXX") None) smallStore getListing
     = (notConfigured, emptyWorld).
Proof.
  split.
  - exact (proj1 (C6_missing_configuration
                    (mkEnv None (Some "appXXXX")) smallStore (getDetail "p")
                    eq_refl eq_refl)).
  - exact (proj1 (C6_missing_configuration
                    (mkEnv (Some "keyXXXX") None) smallStore getListing
                    eq_refl eq_refl)).
Defined.

Lemma C7_witness :
  exists sorted,
    arrayAt "modules" (body (fst (run env0 smallStore (getDetail "p"))))
    = map moduleItem
        (map (project (selectFields (modulesQuery "p"))) sorted)
    /\ Permutation sorted fourModules
    /\ StronglySorted sortOrderLe sorted
    /\ forall k, withSortOrder k sorted = withSortOrder k fourModules.
Proof.
  refine (C7_modules_sorted_and_stable
            env0 smallStore (getDetail "p") [("slug", "p")]
            eq_refl _ eq_refl).
  vm_compute. discriminate.
Defined.

Lemma C8_witness :
  fst (run env0 (failingStore "ProtocolManuals" "AUTHENTICATION_REQUIRED")
           (getDetail "p"))
  = fst (run env0 (failingStore "ClinicalPrograms" "RATE_LIMIT_REACHED")
             getListing).
Proof.
  refine (proj2 (proj2 (proj2
            (C8_upstream_failure_is_generic
               env0 env0
               (failingStore "ProtocolManuals" "AUTHENTICATION_REQUIRED")
               (failingStore "ClinicalPrograms" "RATE_LIMIT_REACHED")
               (getDetail "p") getListing _ _)))).
  - vm_compute. do 2 apply Exists_cons_tl. apply Exists_cons_hd. discriminate.
  - vm_compute. apply Exists_cons_hd. discriminate.
Defined.

Lemma C9_witness :
  Forall (issuedFor "ClinicalPrograms" listingQuery)
         (requests (snd (run env0 smallStore (getDetail "   "))))
  /\ statusCode (fst (run env0 smallStore (getDetail "   "))) <> 404.
Proof.
  destruct (C9_blank_slug_lists env0 smallStore (getDetail "   ")
              [("slug", "   ")] eq_refl eq_refl eq_refl
              (or_intror (ex_intro _ "   " (conj eq_refl eq_refl))))
    as [H1 [H2 _]].
  split; [exact H1 | exact H2].
Defined.

Lemma C10_witness :
  firstAttachmentUrl
    (JsArray [JsObject [("filename", JsString "a.pdf")];
              JsObject [("url", JsString "https://example.org/b.pdf")]])
  = JsUndefined
  /\ firstAttachmentUrl (JsString "https://example.org/b.pdf") = JsUndefined.
Proof.
  destruct C10_first_attachment_decides as [Hfirst Hother].
  split.
  - apply Hfirst. reflexivity.
  - apply Hother. discriminate.
Defined.

(* ===================================================================== *)
(** ** Further runs                                                       *)
(* ===================================================================== *)

Example segment_crlf : segment A_crlf2_B = ["A"; "B"].
Proof. reflexivity. Qed.

Example segment_para3 : segment para3 = ["a"; "b"; "c"].
Proof. reflexivity. Qed.

Example escape_obrien : escapeFormulaString "o'brien" = "o''brien".
Proof. reflexivity. Qed.

Example method_before_configuration :
  run (mkEnv None None) smallStore (mkRequest (Some "POST") None)
  = (methodNotAllowed, emptyWorld).
Proof. reflexivity. Qed.

Example listing_in_two_pages :
  map page (requests (snd (run env0 bigStore getListing))) = [0; 1].
Proof. vm_compute. reflexivity. Qed.

Example detail_with_101_modules :
  statusCode (fst (run env0 bigStore (getDetail "p"))) = 200
  /\ List.length
       (arrayAt "modules" (body (fst (run env0 bigStore (getDetail "p")))))
     = 101
  /\ map page (requests (snd (run env0 bigStore (getDetail "p"))))
     = [0; 0; 1; 0; 0; 0].
Proof. repeat split; vm_compute; reflexivity. Qed.

Example upstream_message_is_logged :
  console (snd (run env0 (failingStore "ProtocolManuals" "AUTHENTICATION_REQUIRED")
                    (getDetail "p")))
  = [[LogString "API /clinical-programs error:";
      LogString "AUTHENTICATION_REQUIRED"]].
Proof. vm_compute. reflexivity. Qed.

(* ===================================================================== *)
(** ** Further properties of the handler                                  *)
(* ===================================================================== *)

(** X1: every response is JSON; a response is either a 200 with the cache
    header, or one of the four fixed error responses, which carry no cache
    header. *)
Theorem X1_response_shape (env : Env) (st : Store) (req : Request) :
  In ("Content-Type", "application/json") (headers (fst (run env st req)))
  /\ ((statusCode (fst (run env st req)) = 200
       /\ headers (fst (run env st req)) = cachedJsonHeaders)
      \/ (In (fst (run env st req))
             [methodNotAllowed; notConfigured; programNotFound;
              internalServerError]
          /\ headers (fst (run env st req)) = jsonHeaders
          /\ forall v, ~ In ("Cache-Control", v) (headers (fst (run env st req))))).
Proof.
  assert (Hno : forall v, ~ In ("Cache-Control", v) jsonHeaders).
  { intros v [E | []]. discriminate E. }
  destruct (run_path env st req) as [o [rqs [HP [_ R]]]].
  destruct HP; rewrite R; simpl fst;
    try (split; [now left|]; right; simpl; now auto 8);
    split; try (now left); left; split; reflexivity.
Qed.

(** X2: the status is 405 exactly when the method is not GET, and such a
    request leaves the world untouched whatever the environment holds. *)
Theorem X2_status_405_iff_not_get (env : Env) (st : Store) (req : Request) :
  (statusCode (fst (run env st req)) = 405 <-> isGet (method req) = false)
  /\ (isGet (method req) = false ->
      run env st req = (methodNotAllowed, emptyWorld)).
Proof.
  assert (H : isGet (method req) = false ->
              run env st req = (methodNotAllowed, emptyWorld)).
  { intros Hm. unfold run, handler, tryBlock. now rewrite Hm. }
  split; [|exact H]. split.
  - intros Hs. destruct (run_path env st req) as [o [rqs [HP [_ R]]]].
    destruct HP; try assumption; rewrite R in Hs; discriminate Hs.
  - intros Hm. now rewrite (H Hm).
Qed.

(** X3: a 404 is answered only to a configured GET request with a slug,
    after exactly one round-trip, the parent lookup, which went through and
    delivered no record. *)
Theorem X3_status_404_only_after_lookup
    (env : Env) (st : Store) (req : Request) :
  statusCode (fst (run env st req)) = 404 ->
  exists pairs,
    searchParams req = Some pairs
    /\ isGet (method req) = true
    /\ missing (AIRTABLE_API_KEY env) || missing (AIRTABLE_BASE_ID env) = false
    /\ slugOf (queryOf pairs) <> ""
    /\ run env st req
       = (programNotFound, mkWorld [parentRequest (slugOf (queryOf pairs))] [])
    /\ succeeds st (parentRequest (slugOf (queryOf pairs)))
    /\ parentRecords st (slugOf (queryOf pairs)) = [].
Proof.
  intros Hs. destruct (run_path env st req) as [o [rqs [HP [_ R]]]].
  destruct HP; try (rewrite R in Hs; discriminate Hs).
  exists pairs. repeat split; assumption.
Qed.

(** X4: the log of a run is empty, or holds pages of the listing query
    only, or starts with the one parent lookup and holds pages of the four
    child queries after it. *)
Theorem X4_log_shape (env : Env) (st : Store) (req : Request) :
  requests (snd (run env st req)) = []
  \/ (requests (snd (run env st req)) <> []
      /\ Forall (issuedFor "ClinicalPrograms" listingQuery)
                (requests (snd (run env st req))))
  \/ (exists pairs rqs,
         searchParams req = Some pairs
         /\ requests (snd (run env st req))
            = parentRequest (slugOf (queryOf pairs)) :: rqs
         /\ Forall (isChildRequest (slugOf (queryOf pairs))) rqs).
Proof.
  destruct (run_path env st req) as [o [rqs [HP [E _]]]].
  rewrite E.
  destruct HP; try (now left);
    try (destruct rqs as [|rq rqs];
         [now left | right; left; split; [discriminate | assumption]]);
    right; right; exists pairs;
    first [ exists rqs; now auto | exists []; now auto ].
Qed.

(* ===================================================================== *)
(** ** The query of the request                                           *)
(* ===================================================================== *)





(** X6: a run depends on the request through its method and its trimmed
    slug only: two requests with the same method test and the same slug
    are answered alike and leave the same world, whatever other parameters
    and whatever white space around the slug they carry. *)
Theorem X6_run_depends_on_method_and_slug
    (env : Env) (st : Store) (req req' : Request)
    (pairs pairs' : list (string * string)) :
  isGet (method req) = isGet (method req') ->
  searchParams req = Some pairs ->
  searchParams req' = Some pairs' ->
  slugOf (queryOf pairs) = slugOf (queryOf pairs') ->
  run env st req = run env st req'.
Proof.
  intros Hm Hp Hp' Hs.
  unfold run, handler, tryBlock, bind, getQuery, ret.
  now rewrite Hm, Hp, Hp', Hs.
Qed.

(* ===================================================================== *)
(** ** More on [escapeFormulaString]                                      *)
(* ===================================================================== *)

Lemma length_append (a b : string) :
  String.length (a ++ b) = String.length a + String.length b.
Proof. induction a as [|c a IH]; simpl; [reflexivity | now rewrite IH]. Qed.

(** X7: [escapeFormulaString] is injective, so two different slugs never
    give the same parent formula nor the same child formula. *)
Theorem X7_escape_injective (a b : string) :
  (escapeFormulaString a = escapeFormulaString b -> a = b)
  /\ (parentFormula (escapeFormulaString a)
      = parentFormula (escapeFormulaString b) -> a = b)
  /\ (childFormula (escapeFormulaString a)
      = childFormula (escapeFormulaString b) -> a = b).
Proof.
  assert (Hinj : forall x y,
             escapeFormulaString x = escapeFormulaString y -> x = y).
  { induction x as [|c x IH]; intros [|d y]; cbn [escapeFormulaString].
    - reflexivity.
    - destruct (Ascii.eqb d quote); discriminate.
    - destruct (Ascii.eqb c quote); discriminate.
    - destruct (Ascii.eqb c quote) eqn:Ec, (Ascii.eqb d quote) eqn:Ed.
      + apply Ascii.eqb_eq in Ec, Ed. subst c d.
        intros [= E]. now rewrite (IH _ E).
      + intros [= E1 E2]. subst d. now rewrite Ascii.eqb_refl in Ed.
      + intros [= E1 E2]. subst c. now rewrite Ascii.eqb_refl in Ec.
      + intros [= E1 E2]. subst d. now rewrite (IH _ E2). }
  assert (Hright : forall x y t : string,
             (x ++ t)%string = (y ++ t)%string -> x = y).
  { intros x y t E.
    assert (L : String.length x = String.length y).
    { apply (f_equal String.length) in E.
      rewrite !length_append in E. lia. }
    revert y E L. induction x as [|c x IH]; intros [|d y] E L;
      try discriminate L; [reflexivity|].
    cbn [append] in E. injection E as -> E.
    f_equal. apply IH; [exact E | now injection L]. }
  split; [apply Hinj|]. split; intros E.
  - apply Hinj. unfold parentFormula in E.
    cbn [append] in E. injection E as E. now apply Hright in E.
  - apply Hinj. unfold childFormula in E.
    cbn [append] in E. injection E as E. now apply Hright in E.
Qed.

(** X8: the escaped text is longer than the slug by the number of its
    single quotes, and it is the slug itself exactly when the slug holds
    no single quote. *)
Theorem X8_escape_length_and_fixed_point (slug : string) :
  String.length (escapeFormulaString slug)
  = String.length slug + countChar quote slug
  /\ (escapeFormulaString slug = slug <-> countChar quote slug = 0).
Proof.
  assert (L : forall s, String.length (escapeFormulaString s)
                        = String.length s + countChar quote s).
  { induction s as [|c s IH]; [reflexivity|].
    cbn [escapeFormulaString countChar].
    rewrite (Ascii.eqb_sym quote c).
    destruct (Ascii.eqb c quote); cbn [String.length]; rewrite IH; lia. }
  split; [apply L|]. split.
  - intros E. specialize (L slug). rewrite E in L. lia.
  - induction slug as [|c s IH]; [reflexivity|].
    cbn [escapeFormulaString countChar]. rewrite (Ascii.eqb_sym quote c).
    destruct (Ascii.eqb c quote); [discriminate|].
    intros H. simpl in H. now rewrite (IH H).
Qed.

(* ===================================================================== *)
(** ** More on the items of the responses                                 *)
(* ===================================================================== *)

(** X9: the URL of a child item is undefined or a truthy value, never an
    empty string nor null; when it is defined it is the link cell itself or
    the url of the first attachment. *)
Theorem X9_resolveUrl_undefined_or_truthy (link file : JsValue) :
  resolveUrl link file = JsUndefined
  \/ (truthy (resolveUrl link file) = true
      /\ ((resolveUrl link file = link /\ exists s, link = JsString s)
          \/ exists first rest,
               file = JsArray (first :: rest)
               /\ resolveUrl link file = optUrl first)).
Proof.
  destruct (truthy (stringOrUndefined link)) eqn:Hl.
  - right. unfold resolveUrl, or. rewrite Hl. cbv iota. rewrite Hl.
    split; [exact Hl|]. left.
    destruct link; try discriminate Hl. split; [reflexivity | now eexists].
  - rewrite (resolveUrl_without_link _ _ Hl).
    unfold firstAttachmentUrl, or.
    destruct (truthy file) eqn:Hf; [|now left].
    destruct file as [| |b|z|s|l|o]; try (now left).
    destruct l as [|first rest]; [now left|].
    destruct (truthy (optUrl first)) eqn:Hu; [|now left].
    right. split; [exact Hu|]. right. now exists first, rest.
Qed.

Lemma lookup_projected (k : string) (names : list string)
    (cells : list (string * JsValue)) :
  existsb (String.eqb k) names = true ->
  lookup k (filter (fun kv => existsb (String.eqb (fst kv)) names) cells)
  = lookup k cells.
Proof.
  intros Hk. induction cells as [|[k' v] rest IH]; [reflexivity|].
  cbn [filter fst lookup].
  destruct (String.eqb k k') eqn:E.
  - apply String.eqb_eq in E. subst k'. rewrite Hk.
    cbn [lookup]. now rewrite String.eqb_refl.
  - destruct (existsb (String.eqb k') names); [|exact IH].
    cbn [lookup]. now rewrite E.
Qed.

(** X10: each query asks the store for every cell its items read: building
    an item from a record restricted to the [fields] of its query gives the
    same item as building it from the whole record. *)
Theorem X10_projection_keeps_items (esc : string) (r : AirtableRecord) :
  listItem (project (selectFields listingQuery) r) = listItem r
  /\ moduleItem (project (selectFields (modulesQuery esc)) r) = moduleItem r
  /\ manualItem (project (selectFields (manualsQuery esc)) r) = manualItem r
  /\ formItem (project (selectFields (formsQuery esc)) r) = formItem r
  /\ resourceItem (project (selectFields (resourcesQuery esc)) r)
     = resourceItem r.
Proof.
  unfold listItem, moduleItem, manualItem, formItem, resourceItem, get.
  cbn [selectFields listingQuery modulesQuery manualsQuery formsQuery
       resourcesQuery project id fields].
  repeat split; repeat (rewrite lookup_projected by reflexivity); reflexivity.
Qed.

(* ===================================================================== *)
(** ** More on the detail path                                            *)
(* ===================================================================== *)

Lemma parentRecords_first (st : Store) (slug : string)
    (p : AirtableRecord) (rest : list AirtableRecord) :
  rows st "ClinicalPrograms"
       (Some (parentFormula (escapeFormulaString slug))) = p :: rest ->
  parentRecords st slug = [p].
Proof.
  intros H. unfold parentRecords, pagesOf, resultSet.
  cbn [filterByFormula parentQuery sort sortRows fold_right maxRecords
       selectFields truncate project pageLimit pageSize].
  rewrite H. reflexivity.
Qed.

(** X11: when several programs satisfy the parent filter, a 200 detail
    response is built from the first of them in the store's order; the
    others leave no trace in it. *)
Theorem X11_first_matching_program_wins
    (env : Env) (st : Store) (req : Request) (pairs : list (string * string))
    (p : AirtableRecord) (rest : list AirtableRecord) :
  searchParams req = Some pairs ->
  slugOf (queryOf pairs) <> "" ->
  rows st "ClinicalPrograms"
       (Some (parentFormula (escapeFormulaString (slugOf (queryOf pairs)))))
  = p :: rest ->
  statusCode (fst (run env st req)) = 200 ->
  exists overview,
    fst (run env st req)
    = detailResponse st (slugOf (queryOf pairs)) p overview
    /\ forall w, overviewOf (or (get p "programOverview") (JsString "")) w
                 = (Return overview, w).
Proof.
  intros Hp Hs Hrows H200.
  pose proof (parentRecords_first st _ p rest Hrows) as Hfirst.
  destruct (run_path env st req) as [o [rqs [HP [_ R]]]].
  destruct HP; try (rewrite R in H200; discriminate H200);
    match goal with
    | H1 : searchParams req = Some ?a, H2 : searchParams req = Some ?b |- _ =>
        rewrite H1 in H2; injection H2 as <-
    end; try contradiction.
  match goal with
  | H : parentRecords _ _ = _ :: _ |- _ =>
      rewrite Hfirst in H; injection H as <- _
  end.
  exists overview. rewrite R. split; [reflexivity | assumption].
Qed.

(** X12: when the overview cell of the program found holds a truthy value
    that is not a string, the handler answers 500 with the generic body
    after the parent lookup alone: no child query is sent. *)
Theorem X12_overview_not_a_string
    (env : Env) (st : Store) (req : Request) (pairs : list (string * string))
    (p : AirtableRecord) (rest : list AirtableRecord) :
  isGet (method req) = true ->
  missing (AIRTABLE_API_KEY env) || missing (AIRTABLE_BASE_ID env) = false ->
  searchParams req = Some pairs ->
  slugOf (queryOf pairs) <> "" ->
  succeeds st (parentRequest (slugOf (queryOf pairs))) ->
  rows st "ClinicalPrograms"
       (Some (parentFormula (escapeFormulaString (slugOf (queryOf pairs)))))
  = p :: rest ->
  ~ textOrEmpty (get p "programOverview") ->
  fst (run env st req) = internalServerError
  /\ requests (snd (run env st req))
     = [parentRequest (slugOf (queryOf pairs))].
Proof.
  intros Hm Hc Hp Hs Hok Hrows Htext.
  pose proof (parentRecords_first st _ p rest Hrows) as Hfirst.
  unfold run, handler, tryBlock, bind, getQuery, ret.
  rewrite Hm, Hc, Hp. cbv iota. simpl negb. cbv iota.
  destruct (isEmptyString (slugOf (queryOf pairs))) eqn:E;
    [apply isEmptyString_true in E; contradiction|].
  unfold detail, bind, firstPage, roundTrip.
  fold (parentRequest (slugOf (queryOf pairs))).
  fold (parentRecords st (slugOf (queryOf pairs))).
  unfold succeeds in Hok. rewrite Hok, Hfirst.
  unfold overviewOf, or.
  destruct (truthy (get p "programOverview")) eqn:Ht;
    [|exfalso; apply Htext; now left].
  rewrite Ht.
  destruct (get p "programOverview") eqn:Hv;
    try (split; reflexivity).
  exfalso. apply Htext. right. now eexists.
Qed.

Lemma pagesOf_nonempty (st : Store) (tbl : string) (q : SelectParams) :
  pagesOf st tbl q <> [].
Proof. unfold pagesOf. destruct (chunk _ _); discriminate. Qed.

Lemma all_starts_with_page_0 (st : Store) (tbl : string) (q : SelectParams)
    (w : World) :
  exists rqs,
    snd (all st tbl q w) = addRequests w (mkPageRequest tbl q 0 :: rqs).
Proof.
  unfold all. pose proof (pagesOf_nonempty st tbl q) as Hne.
  destruct (pagesOf st tbl q) as [|pg more]; [contradiction|].
  cbn [eachPage]. unfold bind, roundTrip.
  destruct (failure st (mkPageRequest tbl q 0)) as [msg|].
  - exists []. reflexivity.
  - destruct (eachPage_run st tbl q more 1 ([] ++ pg)
                (mkWorld (requests w ++ [mkPageRequest tbl q 0]) (console w)))
      as [rqs [_ [[E _] | [msg [E _]]]]];
      exists rqs; rewrite E; cbn [snd];
      change (mkWorld (requests w ++ [mkPageRequest tbl q 0]) (console w))
        with (addRequests w [mkPageRequest tbl q 0]);
      now rewrite addRequests_app.
Qed.

Lemma promiseAll4_world {A : Type} (m1 m2 m3 m4 : M A) (w : World) :
  snd (promiseAll4 m1 m2 m3 m4 w)
  = snd (m4 (snd (m3 (snd (m2 (snd (m1 w))))))).
Proof.
  unfold promiseAll4, bind, settle.
  destruct (m1 w) as [o1 w1]. cbn [snd].
  destruct (m2 w1) as [o2 w2]. cbn [snd].
  destruct (m3 w2) as [o3 w3]. cbn [snd].
  destruct (m4 w3) as [o4 w4]. cbn [snd].
  destruct o1, o2, o3, o4; reflexivity.
Qed.

Lemma In_addRequests (w : World) (rqs : list PageRequest) (rq : PageRequest) :
  In rq (requests w) \/ In rq rqs -> In rq (requests (addRequests w rqs)).
Proof. intros H. unfold addRequests. cbn [requests]. now apply in_or_app. Qed.

Lemma handler_requests (env : Env) (st : Store) (req : Request) (w : World) :
  requests (snd (handler env st req w))
  = requests (snd (tryBlock env st req w)).
Proof.
  unfold handler. destruct (tryBlock env st req w) as [[res|err] w']; reflexivity.
Qed.

(** X13: once the program is found and its overview is read, the four child
    queries are all started, whatever becomes of each: the first page of
    the modules, manuals, forms and resources queries is in the log of the
    run even when one of them fails. *)
Theorem X13_four_child_queries_started
    (env : Env) (st : Store) (req : Request) (pairs : list (string * string))
    (p : AirtableRecord) (rest : list AirtableRecord) :
  isGet (method req) = true ->
  missing (AIRTABLE_API_KEY env) || missing (AIRTABLE_BASE_ID env) = false ->
  searchParams req = Some pairs ->
  slugOf (queryOf pairs) <> "" ->
  succeeds st (parentRequest (slugOf (queryOf pairs))) ->
  parentRecords st (slugOf (queryOf pairs)) = p :: rest ->
  textOrEmpty (get p "programOverview") ->
  forall tbl q,
    In (tbl, q) (childQueries (slugOf (queryOf pairs))) ->
    In (mkPageRequest tbl q 0) (requests (snd (run env st req))).
Proof.
  intros Hm Hc Hp Hs Hok Hrec Htext tbl q Hin.
  unfold run. rewrite handler_requests.
  unfold tryBlock, bind, getQuery, ret.
  rewrite Hm, Hc, Hp. cbv iota. simpl negb. cbv iota.
  destruct (isEmptyString (slugOf (queryOf pairs))) eqn:E;
    [apply isEmptyString_true in E; contradiction|].
  set (slug := slugOf (queryOf pairs)) in *.
  unfold detail, bind, firstPage, roundTrip.
  fold (parentRequest slug). fold (parentRecords st slug).
  unfold succeeds in Hok. rewrite Hok, Hrec.
  assert (Hov : exists ov, forall w,
             overviewOf (or (get p "programOverview") (JsString "")) w
             = (Return ov, w)).
  { destruct (overviewOf_cases (or (get p "programOverview") (JsString "")))
      as [Hret | [e He]]; [exact Hret|].
    exfalso. specialize (He emptyWorld). unfold overviewOf, or in He.
    destruct Htext as [Hf | [s Hstr]].
    - rewrite Hf in He. discriminate He.
    - rewrite Hstr in He. cbn [truthy] in He.
      destruct (negb (isEmptyString s)); cbn [truthy] in He;
        try destruct (negb (isEmptyString s)); discriminate He. }
  destruct Hov as [ov Hov]. cbn [negb]. cbv beta iota. rewrite Hov.
  match goal with
  | |- context [promiseAll4 ?a ?b ?c ?d ?w] =>
      pose proof (promiseAll4_world a b c d w) as Hw;
      destruct (promiseAll4 a b c d w) as [[[[[ms mans] fs] rs]|err] w'] eqn:Eall
  end; cbn [snd] in Hw |- *; rewrite Hw; clear Hw Eall.
  all: repeat match goal with
         | |- context [snd (all ?s ?t ?q0 ?w0)] =>
             let r := fresh "r" in
             let Er := fresh "Er" in
             destruct (all_starts_with_page_0 s t q0 w0) as [r Er];
             rewrite Er; clear Er
         end.
  all: unfold childQueries in Hin; cbn [In] in Hin;
    destruct Hin as [Eq | [Eq | [Eq | [Eq | []]]]]; injection Eq as <- <-.
  all: repeat first
         [ apply In_addRequests; right; now left
         | apply In_addRequests; left ].
Qed.

(* ===================================================================== *)
(** ** The overview paragraphs are the non-blank lines                    *)
(* ===================================================================== *)

Lemma append_nil_r (s : string) : (s ++ "")%string = s.
Proof. induction s as [|c s IH]; simpl; [reflexivity | now rewrite IH]. Qed.

Lemma append_assoc (a b c : string) :
  ((a ++ b) ++ c)%string = (a ++ (b ++ c))%string.
Proof. induction a as [|x a IH]; simpl; [reflexivity | now rewrite IH]. Qed.

Lemma blank_append (a b : string) :
  blank (a ++ b) = blank a && blank b.
Proof.
  induction a as [|c a IH]; simpl; [reflexivity|].
  rewrite IH. apply andb_assoc.
Qed.

(** The matcher only finds what the expression denotes. *)
Lemma starMatch_sound (a : atom) (s : string) :
  forall k x,
    starMatch a s k = Some x ->
    exists t rest, s = (t ++ rest)%string /\ Matches (Star a) t
                   /\ k rest = Some x.
Proof.
  induction s as [|c s IH]; intros k x H; simpl in H.
  - exists EmptyString, EmptyString. repeat split; [constructor | exact H].
  - destruct (atomMatches a c) eqn:Ea.
    + destruct (starMatch a s k) as [y|] eqn:Es.
      * injection H as <-. destruct (IH k y Es) as [t [rest [E [Hm Hk]]]].
        exists (String c t), rest. subst s.
        repeat split; [now constructor | exact Hk].
      * exists EmptyString, (String c s).
        repeat split; [constructor | exact H].
    + exists EmptyString, (String c s).
      repeat split; [constructor | exact H].
Qed.

Lemma rmatch_sound (r : regex) :
  forall s k x,
    rmatch r s k = Some x ->
    exists t rest, s = (t ++ rest)%string /\ Matches r t /\ k rest = Some x.
Proof.
  induction r as [a|a|r1 IH1 r2 IH2|r1 IH1 r2 IH2]; intros s k x H; simpl in H.
  - destruct s as [|c s]; [discriminate|].
    destruct (atomMatches a c) eqn:Ea; [|discriminate].
    exists (String c EmptyString), s.
    repeat split; [now constructor | exact H].
  - now apply starMatch_sound.
  - destruct (IH1 _ _ _ H) as [t1 [rest1 [E1 [M1 H1]]]].
    destruct (IH2 _ _ _ H1) as [t2 [rest2 [E2 [M2 H2]]]].
    exists (t1 ++ t2)%string, rest2. subst s rest1.
    repeat split; [now rewrite append_assoc | now constructor | exact H2].
  - destruct (rmatch r1 s k) as [y|] eqn:E.
    + injection H as <-. destruct (IH1 _ _ _ E) as [t [rest [Es [M Hk]]]].
      exists t, rest. repeat split; [exact Es | now constructor | exact Hk].
    + destruct (IH2 _ _ _ H) as [t [rest [Es [M Hk]]]].
      exists t, rest. repeat split; [exact Es | now apply MatchesAltR | exact Hk].
Qed.

Lemma Matches_whiteOnly (r : regex) (t : string) :
  Matches r t -> whiteOnly r = true -> blank t = true.
Proof.
  induction 1 as [a c Ha|a|a c t Ha _ IH|r1 r2 t1 t2 _ IH1 _ IH2
                 |r1 r2 t _ IH|r1 r2 t _ IH]; intros Hw; simpl in *.
  - destruct a as [c'|]; simpl in Ha.
    + apply Ascii.eqb_eq in Ha. subst c'. now rewrite Hw.
    + now rewrite Ha.
  - reflexivity.
  - rewrite (IH Hw). destruct a as [c'|]; simpl in Ha.
    + apply Ascii.eqb_eq in Ha. subst c'. now rewrite Hw.
    + now rewrite Ha.
  - apply andb_true_iff in Hw as [H1 H2].
    now rewrite blank_append, (IH1 H1), (IH2 H2).
  - apply andb_true_iff in Hw as [H1 _]. auto.
  - apply andb_true_iff in Hw as [_ H2]. auto.
Qed.

Lemma Matches_endsWithNewline (r : regex) (t : string) :
  Matches r t -> endsWithNewline r = true ->
  exists t0, t = (t0 ++ String nl "")%string.
Proof.
  induction 1 as [a c Ha|a|a c t Ha _ IH|r1 r2 t1 t2 _ IH1 _ IH2
                 |r1 r2 t _ IH|r1 r2 t _ IH]; intros He; simpl in *;
    try discriminate.
  - destruct a as [c'|]; [|discriminate]. simpl in Ha.
    apply Ascii.eqb_eq in Ha, He. subst. now exists EmptyString.
  - destruct (IH2 He) as [t0 ->]. exists (t1 ++ t0)%string.
    now rewrite append_assoc.
  - apply andb_true_iff in He as [H1 _]. auto.
  - apply andb_true_iff in He as [_ H2]. auto.
Qed.

(** What a separator found at the start of [s] has consumed. *)
Lemma separator_shape (s rest : string) :
  matchAt overviewSeparator s = Some rest ->
  exists t0, s = ((t0 ++ String nl "") ++ rest)%string
             /\ blank t0 = true.
Proof.
  intros H. destruct (rmatch_sound _ _ _ _ H) as [t [rest' [E [M Hk]]]].
  injection Hk as ->.
  destruct (Matches_endsWithNewline _ _ M eq_refl) as [t0 ->].
  exists t0. split; [exact E|].
  pose proof (Matches_whiteOnly _ _ M eq_refl) as Hb.
  rewrite blank_append in Hb. now apply andb_true_iff in Hb as [Hb _].
Qed.

Lemma splitFrom_skip (r : regex) (t : string) :
  forall piece rest,
    splitFrom r (String.length t) piece (t ++ rest) = splitFrom r 0 piece rest.
Proof. induction t as [|c t IH]; intros piece rest; [reflexivity | apply IH]. Qed.

Lemma trimEnd_append_ws (s : string) (c : ascii) :
  isWhiteSpace c = true -> trimEnd (s ++ String c "") = trimEnd s.
Proof.
  intros Hc. induction s as [|d s IH]; simpl.
  - now rewrite Hc.
  - now rewrite IH.
Qed.

Lemma trimStart_append_ws (s : string) (c : ascii) :
  isWhiteSpace c = true ->
  trimStart (s ++ String c "")
  = if blank s then EmptyString else (trimStart s ++ String c "")%string.
Proof.
  intros Hc. induction s as [|d s IH]; simpl.
  - now rewrite Hc.
  - destruct (isWhiteSpace d); [exact IH | reflexivity].
Qed.

Lemma trim_append_ws (s : string) (c : ascii) :
  isWhiteSpace c = true -> trim (s ++ String c "") = trim s.
Proof.
  intros Hc. unfold trim. rewrite (trimStart_append_ws s c Hc).
  destruct (blank s) eqn:B.
  - now rewrite (trimStart_blank s B).
  - now apply trimEnd_append_ws.
Qed.

Lemma paragraphsOf_cons (piece : string) (l : list string) :
  paragraphsOf (piece :: l) = paragraphsOf [piece] ++ paragraphsOf l.
Proof.
  unfold paragraphsOf. simpl.
  now destruct (negb (isEmptyString (trim piece))).
Qed.

(** Reading on through blank text that ends with a newline closes the
    current line and starts a fresh one. *)
Lemma lines_through_blank (t0 : string) :
  forall piece rest,
    blank t0 = true ->
    paragraphsOf (linesFrom piece ((t0 ++ String nl "") ++ rest))
    = paragraphsOf [piece] ++ paragraphsOf (linesFrom "" rest).
Proof.
  induction t0 as [|c t0 IH]; intros piece rest Hb.
  - cbn [append linesFrom]. rewrite Ascii.eqb_refl.
    apply paragraphsOf_cons.
  - simpl in Hb. apply andb_true_iff in Hb as [Hc Hb].
    cbn [append linesFrom]. destruct (Ascii.eqb c nl).
    + rewrite paragraphsOf_cons, (IH "" rest Hb). reflexivity.
    + rewrite (IH _ rest Hb). f_equal.
      unfold paragraphsOf. simpl. now rewrite (trim_append_ws piece c Hc).
Qed.

Lemma splitFrom_as_lines (n : nat) :
  forall s piece,
    String.length s <= n ->
    paragraphsOf (splitFrom overviewSeparator 0 piece s)
    = paragraphsOf (linesFrom piece s).
Proof.
  induction n as [|n IH]; intros s piece Hlen.
  - destruct s; [reflexivity | simpl in Hlen; lia].
  - destruct s as [|c s']; [reflexivity|].
    cbn [splitFrom].
    destruct (matchAt overviewSeparator (String c s')) as [rest|] eqn:E.
    + destruct (separator_shape _ _ E) as [t0 [Es Hb]].
      assert (Ht : exists t, (t0 ++ String nl "")%string = String c t).
      { destruct t0 as [|d t0]; simpl in Es |- *; injection Es as -> _;
          eexists; reflexivity. }
      destruct Ht as [t Ht].
      assert (Es' : s' = (t ++ rest)%string).
      { rewrite Ht in Es. simpl in Es. now injection Es. }
      rewrite Es at 2. rewrite (lines_through_blank t0 piece rest Hb).
      rewrite Es'. cbn [String.length]. rewrite length_append.
      replace (S (String.length t + String.length rest) - String.length rest)
        with (S (String.length t)) by lia.
      rewrite splitFrom_skip, paragraphsOf_cons. f_equal.
      apply IH. rewrite Es' in Hlen. cbn [String.length] in Hlen.
      rewrite length_append in Hlen. lia.
    + cbn [linesFrom]. destruct (Ascii.eqb c nl) eqn:Ec.
      * apply Ascii.eqb_eq in Ec. subst c.
        exfalso. exact (separator_at_newline s' E).
      * apply IH. simpl in Hlen. lia.
Qed.

(** X14: the overview paragraphs are the lines of the raw text, trimmed,
    the blank ones dropped: splitting at the whole separator gives what
    splitting at every newline gives. *)
Theorem X14_segment_is_non_blank_lines (raw : string) :
  segment raw = paragraphsOf (lines raw).
Proof.
  destruct raw as [|c raw]; [reflexivity|].
  rewrite segment_unfold. unfold split, lines.
  apply (splitFrom_as_lines (String.length (String c raw))). apply le_n.
Qed.

(* ===================================================================== *)
(** ** The browser-side configuration                                     *)
(* ===================================================================== *)

(** X15: [getAirtableBaseId] never throws; it returns the stored base id
    when the storage can be read and holds a non-empty one, and otherwise
    the bound default or, with none bound or no storage, the built-in
    [AIRTABLE_BASE_ID]; with no default bound the result is never empty. *)
Theorem X15_base_id_fallback (storage : Config.Storage) (default : option string) :
  (forall getItem v,
      storage = Some getItem -> getItem "AIRTABLE_BASE_ID" = Some v ->
      v <> "" -> Config.getAirtableBaseId storage default = v)
  /\ (forall getItem,
         storage = Some getItem ->
         getItem "AIRTABLE_BASE_ID" = None
         \/ getItem "AIRTABLE_BASE_ID" = Some "" ->
         Config.getAirtableBaseId storage default
         = match default with
           | Some d => d
           | None => Config.AIRTABLE_BASE_ID
           end)
  /\ (storage = None ->
      Config.getAirtableBaseId storage default = Config.AIRTABLE_BASE_ID)
  /\ Config.getAirtableBaseId storage None <> "".
Proof.
  split; [|split; [|split]].
  - intros getItem v -> Hv Hne. unfold Config.getAirtableBaseId.
    rewrite Hv. destruct v; [congruence | reflexivity].
  - intros getItem -> [H | H]; unfold Config.getAirtableBaseId;
      now rewrite H.
  - now intros ->.
  - unfold Config.getAirtableBaseId.
    destruct storage as [getItem|]; [|discriminate].
    destruct (getItem "AIRTABLE_BASE_ID") as [[|c v]|]; discriminate.
Qed.

(** X16: [getAirtableBase] throws its missing-token error exactly when the
    storage cannot be read or holds no non-empty [AIRTABLE_API_KEY];
    otherwise it returns the client made of the stored token and of the
    base id that [getAirtableBaseId] gives. *)
Theorem X16_base_needs_token (storage : Config.Storage) (default : option string) :
  (Config.getAirtableBase storage default
   = inl "Airtable PAT not found. Set it in this browser."
   <-> Config.getAirtableToken storage = None
       \/ Config.getAirtableToken storage = Some "")
  /\ (forall k,
         Config.getAirtableToken storage = Some k -> k <> "" ->
         Config.getAirtableBase storage default
         = inr (Config.mkBase k (Config.getAirtableBaseId storage default)))
  /\ (storage = None -> Config.getAirtableToken storage = None).
Proof.
  unfold Config.getAirtableBase.
  split; [|split].
  - destruct (Config.getAirtableToken storage) as [[|c k]|]; simpl;
      split; intros H; auto; try discriminate H.
    destruct H as [H | H]; discriminate H.
  - intros k -> Hk. destruct k; [congruence | reflexivity].
  - now intros ->.
Qed.

(* ===================================================================== *)
(** ** From the client's URL to the handler's slug                        *)
(* ===================================================================== *)

Ltac each_ascii c :=
  let b0 := fresh "b" in let b1 := fresh "b" in let b2 := fresh "b" in
  let b3 := fresh "b" in let b4 := fresh "b" in let b5 := fresh "b" in
  let b6 := fresh "b" in let b7 := fresh "b" in
  destruct c as [b0 b1 b2 b3 b4 b5 b6 b7];
  destruct b0, b1, b2, b3, b4, b5, b6, b7.

Lemma allChars_append (p : ascii -> bool) (a b : string) :
  Client.allChars p (a ++ b) = Client.allChars p a && Client.allChars p b.
Proof.
  induction a as [|c a IH]; simpl; [reflexivity|].
  rewrite IH. apply andb_assoc.
Qed.

Lemma allChars_occurs (p : ascii -> bool) (d : ascii) (s : string) :
  Client.allChars p s = true -> p d = false -> occurs d s = false.
Proof.
  intros Hall Hd. induction s as [|c s IH]; [reflexivity|].
  simpl in *. apply andb_true_iff in Hall as [Hc Hs].
  rewrite (IH Hs), orb_false_r.
  destruct (Ascii.eqb d c) eqn:E; [|reflexivity].
  apply Ascii.eqb_eq in E. congruence.
Qed.

Lemma encodeUnit_safe (c : ascii) :
  Client.allChars Client.urlSafe (Client.encodeUnit c) = true.
Proof. each_ascii c; vm_compute; reflexivity. Qed.

Lemma encodeURIComponent_safe (s : string) :
  Client.allChars Client.urlSafe (Client.encodeURIComponent s) = true.
Proof.
  induction s as [|c s IH]; [reflexivity|].
  cbn [Client.encodeURIComponent].
  now rewrite allChars_append, encodeUnit_safe, IH.
Qed.

(** X17: [encodeURIComponent] yields letters, digits, the marks
    [- _ . ! ~ * ' ( )] and percent signs only; so the encoded slug holds
    none of the characters that structure the query of a URL. *)
Theorem X17_encoded_slug_is_url_safe (slug : string) :
  Client.allChars Client.urlSafe (Client.encodeURIComponent slug) = true
  /\ Forall (fun d => occurs d (Client.encodeURIComponent slug) = false)
            ["&"; "="; "#"; "?"; "+"; "/"; " "]%char.
Proof.
  pose proof (encodeURIComponent_safe slug) as H.
  split; [exact H|].
  repeat constructor; apply (allChars_occurs _ _ _ H); reflexivity.
Qed.

Lemma nat_of_ascii_bound (c : ascii) : (nat_of_ascii c < 256)%nat.
Proof. each_ascii c; vm_compute; lia. Qed.

Lemma hexValue_hexDigit (k : nat) :
  (k < 16)%nat -> Client.hexValue (Client.hexDigit k) = Some k.
Proof. intros H. do 16 (destruct k as [|k]; [reflexivity|]). lia. Qed.

Lemma percentDecode_triplet (h1 h2 : ascii) (a b : nat) (t : string) :
  Client.hexValue h1 = Some a -> Client.hexValue h2 = Some b ->
  Client.percentDecode (String "%" (String h1 (String h2 t)))
  = String (ascii_of_nat (16 * a + b)) (Client.percentDecode t).
Proof.
  intros H1 H2. cbn [Client.percentDecode].
  rewrite Ascii.eqb_refl, H1, H2. reflexivity.
Qed.

Lemma percentDecode_percent (n : nat) (t : string) :
  (n < 256)%nat ->
  Client.percentDecode (Client.percent n ++ t)
  = String (ascii_of_nat n) (Client.percentDecode t).
Proof.
  intros Hn. unfold Client.percent. cbn [append].
  rewrite (percentDecode_triplet _ _ (n / 16) (n mod 16)).
  - now rewrite <- (Nat.div_mod_eq n 16).
  - apply hexValue_hexDigit. apply Nat.Div0.div_lt_upper_bound. lia.
  - apply hexValue_hexDigit. apply Nat.mod_upper_bound. lia.
Qed.

Lemma unreserved_is_plain (c : ascii) :
  Client.isUnreserved c = true ->
  Ascii.eqb c "%" = false /\ Ascii.eqb c "+" = false
  /\ (nat_of_ascii c <? 128)%nat = true.
Proof. each_ascii c; vm_compute; intros H; auto; discriminate H. Qed.

Lemma utf8String_ascii (c : ascii) :
  (nat_of_ascii c <? 128)%nat = true ->
  Client.utf8String c = String c EmptyString.
Proof.
  intros H. unfold Client.utf8String, Client.utf8. rewrite H.
  cbn [map string_of_list_ascii]. now rewrite ascii_nat_embedding.
Qed.

Lemma percentDecode_utf8 (c : ascii) (t : string) :
  Client.percentDecode
    (String.concat EmptyString (map Client.percent (Client.utf8 c)) ++ t)
  = (Client.utf8String c ++ Client.percentDecode t)%string.
Proof.
  pose proof (nat_of_ascii_bound c) as Hb.
  pose proof (Nat.mod_upper_bound (nat_of_ascii c) 64) as Hm.
  pose proof (Nat.Div0.div_lt_upper_bound (nat_of_ascii c) 64 4) as Hd.
  unfold Client.utf8String, Client.utf8.
  destruct (nat_of_ascii c <? 128)%nat; cbn [map String.concat string_of_list_ascii].
  - now rewrite percentDecode_percent.
  - cbn [append]. rewrite append_assoc.
    rewrite percentDecode_percent by lia.
    rewrite percentDecode_percent by lia. reflexivity.
Qed.

Lemma percentDecode_unit (c : ascii) (t : string) :
  Client.percentDecode (Client.encodeUnit c ++ t)
  = (Client.utf8String c ++ Client.percentDecode t)%string.
Proof.
  unfold Client.encodeUnit.
  destruct (Client.isUnreserved c) eqn:E; [|apply percentDecode_utf8].
  destruct (unreserved_is_plain c E) as [Hp [_ Ha]].
  rewrite (utf8String_ascii c Ha). cbn [append Client.percentDecode].
  now rewrite Hp.
Qed.

Lemma utf8Decode_unit (c : ascii) (t : string) :
  Client.utf8Decode (Client.utf8String c ++ t)
  = option_map (String c) (Client.utf8Decode t).
Proof.
  pose proof (nat_of_ascii_bound c) as Hb.
  destruct (nat_of_ascii c <? 128)%nat eqn:E.
  - rewrite (utf8String_ascii c E). cbn [append Client.utf8Decode].
    now rewrite E.
  - apply Nat.ltb_ge in E.
    pose proof (Nat.mod_upper_bound (nat_of_ascii c) 64) as Hm.
    pose proof (Nat.div_mod_eq (nat_of_ascii c) 64) as Hdm.
    assert (Hq : nat_of_ascii c / 64 = 2 \/ nat_of_ascii c / 64 = 3) by lia.
    unfold Client.utf8String, Client.utf8.
    apply Nat.ltb_ge in E. rewrite E.
    cbn [map string_of_list_ascii append Client.utf8Decode].
    unfold Client.inRange.
    rewrite !nat_ascii_embedding by lia.
    replace (192 + nat_of_ascii c / 64 <? 128)%nat with false
      by (symmetry; apply Nat.ltb_ge; lia).
    replace ((192 + nat_of_ascii c / 64 =? 194)%nat
             || (192 + nat_of_ascii c / 64 =? 195)%nat)%bool with true
      by (symmetry; destruct Hq as [-> | ->]; reflexivity).
    replace ((128 <=? 128 + nat_of_ascii c mod 64)%nat
             && (128 + nat_of_ascii c mod 64 <=? 191)%nat)%bool with true
      by (symmetry; apply andb_true_iff; split; apply Nat.leb_le; lia).
    replace ((192 + nat_of_ascii c / 64 - 192) * 64
             + (128 + nat_of_ascii c mod 64 - 128))
      with (nat_of_ascii c) by lia.
    now rewrite ascii_nat_embedding.
Qed.

Lemma percentDecode_encode (s : string) :
  Client.percentDecode (Client.encodeURIComponent s) = Client.utf8Encode s.
Proof.
  induction s as [|c s IH]; [reflexivity|].
  cbn [Client.encodeURIComponent Client.utf8Encode].
  now rewrite percentDecode_unit, IH.
Qed.

Lemma utf8Decode_encode (s : string) :
  Client.utf8Decode (Client.utf8Encode s) = Some s.
Proof.
  induction s as [|c s IH]; [reflexivity|].
  cbn [Client.utf8Encode]. now rewrite utf8Decode_unit, IH.
Qed.

Lemma plusToSpace_safe (s : string) :
  Client.allChars Client.urlSafe s = true -> Client.plusToSpace s = s.
Proof.
  induction s as [|c s IH]; [reflexivity|].
  simpl. intros H. apply andb_true_iff in H as [Hc Hs].
  rewrite (IH Hs). destruct (Ascii.eqb c "+") eqn:E; [|reflexivity].
  apply Ascii.eqb_eq in E. subst c. discriminate Hc.
Qed.

Lemma decodeComponent_encode (s : string) :
  Client.decodeComponent (Client.encodeURIComponent s) = Some s.
Proof.
  unfold Client.decodeComponent.
  rewrite (plusToSpace_safe _ (encodeURIComponent_safe s)).
  rewrite percentDecode_encode. apply utf8Decode_encode.
Qed.

Lemma cut_absent (d : ascii) (s : string) :
  occurs d s = false -> Client.cut d s = (s, None).
Proof.
  induction s as [|c s IH]; [reflexivity|].
  simpl. rewrite (Ascii.eqb_sym d c).
  destruct (Ascii.eqb c d); [discriminate|].
  simpl. intros H. now rewrite (IH H).
Qed.

Lemma piecesFrom_absent (d : ascii) (s : string) :
  forall piece,
    occurs d s = false ->
    Client.piecesFrom d piece s = [(piece ++ s)%string].
Proof.
  induction s as [|c s IH]; intros piece.
  - intros _. simpl. now rewrite append_nil_r.
  - simpl. rewrite (Ascii.eqb_sym d c).
    destruct (Ascii.eqb c d); [discriminate|].
    simpl. intros H. rewrite (IH _ H). now rewrite append_assoc.
Qed.

Lemma searchOf_programDetailUrl (slug : string) :
  Client.searchOf (Client.programDetailUrl slug)
  = ("slug=" ++ Client.encodeURIComponent slug)%string.
Proof.
  unfold Client.searchOf, Client.programDetailUrl.
  rewrite (cut_absent "#").
  - reflexivity.
  - rewrite occurs_append. cbn [orb].
    apply (allChars_occurs _ _ _ (encodeURIComponent_safe slug)). reflexivity.
Qed.

(** X18: the URL the client builds for a slug is read back by the server
    as the single parameter [slug] with that very value, whatever
    characters the slug holds; the handler then works with the trimmed
    slug, as for the request that carries this parameter alone. *)
Theorem X18_client_slug_reaches_handler (slug : string) :
  Client.searchParamsOf (Client.programDetailUrl slug) = Some [("slug", slug)]
  /\ slugOf (queryOf [("slug", slug)]) = trim slug
  /\ forall env st,
       run env st (Client.getRequest (Client.programDetailUrl slug))
       = run env st (getDetail slug).
Proof.
  assert (H : Client.searchParamsOf (Client.programDetailUrl slug)
              = Some [("slug", slug)]).
  { unfold Client.searchParamsOf. rewrite searchOf_programDetailUrl.
    rewrite piecesFrom_absent.
    - cbn [append Client.decodePairs isEmptyString].
      unfold Client.decodePair.
      change (Client.cut "=" (String "s" (String "l" (String "u" (String "g"
                (String "=" (Client.encodeURIComponent slug)))))))
        with ("slug", Some (Client.encodeURIComponent slug)).
      cbv iota beta. rewrite decodeComponent_encode. reflexivity.
    - rewrite occurs_append. cbn [orb].
      apply (allChars_occurs _ _ _ (encodeURIComponent_safe slug)).
      reflexivity. }
  split; [exact H|]. split.
  - unfold slugOf, queryOf. simpl. now destruct slug.
  - intros env st. unfold Client.getRequest. now rewrite H.
Qed.

(* ===================================================================== *)
(** ** The programs page and what the client receives                     *)
(* ===================================================================== *)

(** X19: whatever [fetch] does, [fetchPrograms] leaves the page out of its
    loading state; the error is cleared exactly when a response arrived
    with [ok], its body parsed and was not null, and when an error is set
    the list of programs is the one the page had before. *)
Theorem X19_fetchPrograms_settles (f : Page.Fetched) (s : Page.State) :
  Page.loading (Page.fetchPrograms f s) = false
  /\ Page.view (Page.fetchPrograms f s) <> Page.Spinner
  /\ (Page.error (Page.fetchPrograms f s) = None
      <-> exists res data,
            f = Page.Responded res /\ Page.ok res = true
            /\ Page.json res = inr data
            /\ data <> JsNull /\ data <> JsUndefined)
  /\ (Page.error (Page.fetchPrograms f s) <> None ->
      Page.programs (Page.fetchPrograms f s) = Page.programs s).
Proof.
  unfold Page.fetchPrograms.
  split; [destruct (Page.tryFetch f); reflexivity|].
  split.
  { unfold Page.view. destruct (Page.tryFetch f) as [msg|items]; simpl;
      [destruct (isEmptyString msg)|]; discriminate. }
  split.
  - split.
    + destruct f as [msg|res]; simpl; [discriminate|].
      destruct (Page.ok res) eqn:Hok; simpl; [|discriminate].
      destruct (Page.json res) as [msg|data] eqn:Hj; [discriminate|].
      intros H. exists res, data.
      destruct data; try discriminate H;
        repeat split; auto; discriminate.
    + intros [res [data [-> [Hok [Hj [Hn Hu]]]]]]. simpl.
      rewrite Hok, Hj. simpl.
      destruct data; try reflexivity; congruence.
  - destruct (Page.tryFetch f); simpl; [reflexivity | congruence].
Qed.

Lemma jsonView_object (props : list (string * JsValue)) :
  Page.jsonView (JsObject props) = JsObject (keepDefined props).
Proof.
  unfold keepDefined. simpl. f_equal.
  induction props as [|[k x] rest IH]; [reflexivity|].
  rewrite IH. destruct x; reflexivity.
Qed.

Lemma requestOf_listing :
  Client.getRequest "/api/clinical-programs" = getListing.
Proof. reflexivity. Qed.

(** X20: the programs page served by the handler. When the response of the
    handler to the page's request arrives, the page shows either the error
    [Failed to fetch programs: 500], or one card per program record of the
    store; it never shows a 404 or a 405. *)
Theorem X20_programs_page_on_handler (env : Env) (st : Store) :
  (statusCode (fst (run env st (Client.getRequest "/api/clinical-programs")))
   = 500
   /\ Page.view
        (Page.fetchPrograms
           (Page.Responded
              (Page.delivered
                 (fst (run env st (Client.getRequest "/api/clinical-programs")))))
           Page.initial)
      = Page.ErrorView "Failed to fetch programs: 500")
  \/ (statusCode (fst (run env st (Client.getRequest "/api/clinical-programs")))
      = 200
      /\ Page.view
           (Page.fetchPrograms
              (Page.Responded
                 (Page.delivered
                    (fst (run env st
                            (Client.getRequest "/api/clinical-programs")))))
              Page.initial)
         = Page.Cards
             (JsArray (arrayAt "items"
                         (Page.jsonView (body (listingResponse st)))))
      /\ List.length (arrayAt "items"
                        (Page.jsonView (body (listingResponse st))))
         = List.length (rows st "ClinicalPrograms" None)).
Proof.
  rewrite requestOf_listing.
  destruct (run_path env st getListing) as [o [rqs [HP [_ R]]]].
  destruct HP;
    try match goal with
        | H : isGet (method getListing) = false |- _ => discriminate H
        | H : searchParams getListing = None |- _ => discriminate H
        | H : searchParams getListing = Some ?a |- _ =>
            injection H as <-
        end;
    try match goal with
        | H : slugOf (queryOf []) <> "" |- _ => exfalso; now apply H
        end;
    rewrite R; cbn [fst].
  - left. split; reflexivity.
  - right. split; [reflexivity|]. split; [reflexivity|].
    change (arrayAt "items" (Page.jsonView (body (listingResponse st))))
      with (map (fun x => match x with
                          | JsUndefined => JsNull
                          | _ => Page.jsonView x
                          end)
                (map listItem (resultSet st "ClinicalPrograms" listingQuery))).
    rewrite !length_map. now apply resultSet_length.
  - left. split; reflexivity.
Qed.

Lemma hasKey_jsonView (k : string) (props : list (string * JsValue)) :
  hasKey k (Page.jsonView (JsObject props))
  = existsb (fun kv => String.eqb k (fst kv) && negb (isUndefined (snd kv)))
            props.
Proof.
  rewrite jsonView_object. unfold keepDefined. cbn [hasKey].
  induction props as [|[k' x] rest IH]; [reflexivity|].
  cbn [flat_map existsb fst snd].
  destruct (isUndefined x); cbn [app existsb fst negb].
  - rewrite IH. now rewrite andb_false_r.
  - rewrite IH. now rewrite andb_true_r.
Qed.

Lemma or_string_defined (v : JsValue) (s : string) :
  isUndefined (or v (JsString s)) = false.
Proof.
  unfold or. destruct (truthy v) eqn:E; [|reflexivity].
  destruct v; try reflexivity. discriminate E.
Qed.

(** X21: what the client receives of a training module. The JSON of the
    item always names [id] and [name], never [description]; it names
    [duration] exactly when the length cell is truthy and [url] exactly
    when a URL was resolved. Likewise a resource never carries [type], and
    the detail object never carries [image]. *)
Theorem X21_json_of_items (r p : AirtableRecord) (slug : string)
    (overview : list string) (ms mans fs rs : list AirtableRecord) :
  hasKey "id" (Page.jsonView (moduleItem r)) = true
  /\ hasKey "name" (Page.jsonView (moduleItem r)) = true
  /\ hasKey "description" (Page.jsonView (moduleItem r)) = false
  /\ hasKey "duration" (Page.jsonView (moduleItem r))
     = truthy (get r "moduleLength")
  /\ hasKey "url" (Page.jsonView (moduleItem r))
     = negb (isUndefined (resolveUrl (get r "moduleLink") (get r "moduleFile")))
  /\ hasKey "type" (Page.jsonView (resourceItem r)) = false
  /\ hasKey "image" (Page.jsonView (detailOf slug p overview ms mans fs rs))
     = false.
Proof.
  unfold moduleItem, resourceItem, detailOf.
  rewrite !hasKey_jsonView.
  cbn [existsb fst snd String.eqb Ascii.eqb Bool.eqb andb orb isUndefined negb].
  rewrite !or_string_defined. cbn [negb orb andb].
  repeat split; try reflexivity.
  - unfold or. destruct (get r "moduleLength") as [| |b|z|s|l|o];
      cbn [truthy isUndefined negb orb]; try reflexivity.
    + now destruct b.
    + now destruct (negb (z =? 0)%Z).
    + now destruct (negb (isEmptyString s)).
  - now rewrite orb_false_r.
Qed.

(* ===================================================================== *)
(** ** Further instances on the sample stores                             *)
(* ===================================================================== *)

Lemma X3_witness :
  exists pairs,
    searchParams (getDetail "zz") = Some pairs
    /\ run env0 smallStore (getDetail "zz")
       = (programNotFound, mkWorld [parentRequest (slugOf (queryOf pairs))] []).
Proof.
  destruct (X3_status_404_only_after_lookup env0 smallStore (getDetail "zz")
              eq_refl) as [pairs [H1 [_ [_ [_ [H2 _]]]]]].
  exists pairs. split; [exact H1 | exact H2].
Defined.


Lemma X6_witness :
  run env0 smallStore (getDetail " p ")
  = run env0 smallStore
        (mkRequest (Some "GET") (Some [("ref", "mail"); ("slug", "p")])).
Proof.
  exact (X6_run_depends_on_method_and_slug
           env0 smallStore (getDetail " p ")
           (mkRequest (Some "GET") (Some [("ref", "mail"); ("slug", "p")]))
           [("slug", " p ")] [("ref", "mail"); ("slug", "p")]
           eq_refl eq_refl eq_refl eq_refl).
Defined.

Lemma X11_witness :
  exists overview,
    fst (run env0 oddStore (getDetail "p"))
    = detailResponse oddStore "p" program_p overview.
Proof.
  destruct (X11_first_matching_program_wins
              env0 oddStore (getDetail "p") [("slug", "p")] program_p
              [mkRecord "recP2" [("programName", JsString "Other")]]
              eq_refl ltac:(vm_compute; discriminate) eq_refl eq_refl)
    as [overview [H _]].
  exists overview. exact H.
Defined.

Lemma X12_witness :
  fst (run env0 oddStore (getDetail "n")) = internalServerError
  /\ requests (snd (run env0 oddStore (getDetail "n")))
     = [parentRequest (slugOf (queryOf [("slug", "n")]))].
Proof.
  refine (X12_overview_not_a_string
            env0 oddStore (getDetail "n") [("slug", "n")] program_n []
            eq_refl eq_refl eq_refl _ eq_refl eq_refl _).
  - vm_compute. discriminate.
  - intros [H | [s H]]; discriminate H.
Defined.

Lemma X13_witness :
  In (mkPageRequest "AdditionalResources" (resourcesQuery "p") 0)
     (requests
        (snd (run env0 (failingStore "ProtocolManuals" "AUTHENTICATION_REQUIRED")
                  (getDetail "p")))).
Proof.
  refine (X13_four_child_queries_started
            env0 (failingStore "ProtocolManuals" "AUTHENTICATION_REQUIRED")
            (getDetail "p") [("slug", "p")] program_p []
            eq_refl eq_refl eq_refl _ eq_refl eq_refl _
            "AdditionalResources" (resourcesQuery "p") _).
  - vm_compute. discriminate.
  - right. exists A_nl_nl_B. reflexivity.
  - simpl. tauto.
Defined.

Example client_url_of_a_slug :
  Client.programDetailUrl "o'brien & co"
  = "/api/clinical-programs?slug=o'brien%20%26%20co".
Proof. reflexivity. Qed.

Example lines_of_para3 : paragraphsOf (lines para3) = ["a"; "b"; "c"].
Proof. reflexivity. Qed.

(* ===================================================================== *)
(** ** The URL of the resource library                                    *)
(* ===================================================================== *)

Lemma plusToSpace_append (a b : string) :
  Client.plusToSpace (a ++ b)
  = (Client.plusToSpace a ++ Client.plusToSpace b)%string.
Proof. induction a as [|c a IH]; simpl; [reflexivity | now rewrite IH]. Qed.

Lemma hexDigit_not_plus (k : nat) :
  (k < 16)%nat -> Ascii.eqb (Client.hexDigit k) "+" = false.
Proof. intros H. do 16 (destruct k as [|k]; [reflexivity|]). lia. Qed.

Lemma plusToSpace_percent (n : nat) :
  (n < 256)%nat -> Client.plusToSpace (Client.percent n) = Client.percent n.
Proof.
  intros Hn. unfold Client.percent. cbn [Client.plusToSpace].
  rewrite !hexDigit_not_plus; [reflexivity | |].
  - apply Nat.mod_upper_bound. lia.
  - apply Nat.Div0.div_lt_upper_bound. lia.
Qed.

Lemma plusToSpace_utf8 (c : ascii) :
  Client.plusToSpace
    (String.concat EmptyString (map Client.percent (Client.utf8 c)))
  = String.concat EmptyString (map Client.percent (Client.utf8 c)).
Proof.
  pose proof (nat_of_ascii_bound c) as Hb.
  pose proof (Nat.mod_upper_bound (nat_of_ascii c) 64) as Hm.
  pose proof (Nat.Div0.div_lt_upper_bound (nat_of_ascii c) 64 4) as Hd.
  unfold Client.utf8.
  destruct (nat_of_ascii c <? 128)%nat; cbn [map String.concat].
  - now apply plusToSpace_percent.
  - cbn [append]. rewrite plusToSpace_append.
    now rewrite !plusToSpace_percent by lia.
Qed.

Lemma form_plain (c : ascii) :
  Client.isAlnum c || occurs c "*-._" = true ->
  Ascii.eqb c "%" = false /\ Ascii.eqb c "+" = false
  /\ (nat_of_ascii c <? 128)%nat = true.
Proof. each_ascii c; vm_compute; intros H; auto; discriminate H. Qed.

Lemma formDecode_unit (c : ascii) (t : string) :
  Client.percentDecode (Client.plusToSpace (Client.formEncodeUnit c) ++ t)
  = (Client.utf8String c ++ Client.percentDecode t)%string.
Proof.
  unfold Client.formEncodeUnit.
  destruct (Client.isAlnum c || occurs c "*-._") eqn:E.
  - destruct (form_plain c E) as [Hp [Hq Ha]].
    rewrite (utf8String_ascii c Ha).
    cbn [Client.plusToSpace append Client.percentDecode].
    now rewrite Hq, Hp.
  - destruct (Ascii.eqb c " ") eqn:Es.
    + apply Ascii.eqb_eq in Es. subst c. reflexivity.
    + rewrite plusToSpace_utf8. apply percentDecode_utf8.
Qed.

Lemma formDecode_encode (s : string) :
  Client.decodeComponent (Client.formEncode s) = Some s.
Proof.
  unfold Client.decodeComponent.
  assert (H : Client.percentDecode (Client.plusToSpace (Client.formEncode s))
              = Client.utf8Encode s).
  { induction s as [|c s IH]; [reflexivity|].
    cbn [Client.formEncode Client.utf8Encode].
    now rewrite plusToSpace_append, formDecode_unit, IH. }
  rewrite H. apply utf8Decode_encode.
Qed.

Lemma formEncodeUnit_safe (c : ascii) :
  Client.allChars Client.formSafe (Client.formEncodeUnit c) = true.
Proof. each_ascii c; vm_compute; reflexivity. Qed.

Lemma formEncode_safe (s : string) :
  Client.allChars Client.formSafe (Client.formEncode s) = true.
Proof.
  induction s as [|c s IH]; [reflexivity|].
  cbn [Client.formEncode].
  now rewrite allChars_append, formEncodeUnit_safe, IH.
Qed.

Lemma allChars_weaken (p q : ascii -> bool) (s : string) :
  (forall c, p c = true -> q c = true) ->
  Client.allChars p s = true -> Client.allChars q s = true.
Proof.
  intros Hpq. induction s as [|c s IH]; [reflexivity|].
  simpl. intros H. apply andb_true_iff in H as [Hc Hs].
  now rewrite (Hpq c Hc), (IH Hs).
Qed.

Lemma formSafe_querySafe (c : ascii) :
  Client.formSafe c = true -> Client.querySafe c = true.
Proof. unfold Client.querySafe. now intros ->. Qed.

Lemma serialize_safe (pairs : list (string * string)) :
  Client.allChars Client.querySafe (Client.serialize pairs) = true.
Proof.
  induction pairs as [|[k v] rest IH]; [reflexivity|].
  cbn [Client.serialize].
  rewrite !allChars_append. cbn [Client.allChars].
  rewrite (allChars_weaken _ _ _ formSafe_querySafe (formEncode_safe k)).
  rewrite (allChars_weaken _ _ _ formSafe_querySafe (formEncode_safe v)).
  destruct rest as [|kv rest]; [reflexivity|].
  cbn [Client.allChars]. now rewrite IH.
Qed.

Lemma cut_at (d : ascii) (a b : string) :
  occurs d a = false -> Client.cut d (a ++ String d b) = (a, Some b).
Proof.
  induction a as [|c a IH]; simpl.
  - intros _. now rewrite Ascii.eqb_refl.
  - rewrite (Ascii.eqb_sym d c).
    destruct (Ascii.eqb c d); [discriminate|].
    simpl. intros H. now rewrite (IH H).
Qed.

Lemma piecesFrom_at (d : ascii) (a b : string) :
  forall piece,
    occurs d a = false ->
    Client.piecesFrom d piece (a ++ String d b)
    = (piece ++ a)%string :: Client.piecesFrom d EmptyString b.
Proof.
  induction a as [|c a IH]; intros piece; simpl.
  - intros _. now rewrite Ascii.eqb_refl, append_nil_r.
  - rewrite (Ascii.eqb_sym d c).
    destruct (Ascii.eqb c d); [discriminate|].
    simpl. intros H. rewrite (IH _ H). now rewrite append_assoc.
Qed.

Lemma decodePair_serialized (k v : string) :
  Client.decodePair (Client.formEncode k ++ String "=" (Client.formEncode v))
  = Some (k, v).
Proof.
  unfold Client.decodePair. rewrite cut_at.
  - now rewrite !formDecode_encode.
  - apply (allChars_occurs _ _ _ (formEncode_safe k)). reflexivity.
Qed.

Lemma occurs_pair (d : ascii) (k v : string) :
  Client.formSafe d = false -> Ascii.eqb d "=" = false ->
  occurs d (Client.formEncode k ++ String "=" (Client.formEncode v)) = false.
Proof.
  intros Hd He. rewrite occurs_append. cbn [occurs].
  rewrite (allChars_occurs _ _ _ (formEncode_safe k) Hd).
  rewrite (allChars_occurs _ _ _ (formEncode_safe v) Hd).
  now rewrite He.
Qed.

(** Reading back what the serializer wrote gives the pairs it was given. *)
Lemma decodePairs_serialize (pairs : list (string * string)) :
  Client.decodePairs
    (Client.piecesFrom "&" EmptyString (Client.serialize pairs))
  = Some pairs.
Proof.
  induction pairs as [|[k v] rest IH]; [reflexivity|].
  cbn [Client.serialize].
  assert (Hne : forall a b c, isEmptyString (a ++ String c b) = false).
  { intros a b c. now destruct a. }
  destruct rest as [|kv rest].
  - rewrite append_nil_r. rewrite piecesFrom_absent
      by (apply occurs_pair; reflexivity).
    cbn [append Client.decodePairs]. rewrite Hne.
    now rewrite decodePair_serialized.
  - rewrite piecesFrom_at by (apply occurs_pair; reflexivity).
    cbn [append Client.decodePairs]. rewrite Hne.
    now rewrite decodePair_serialized, IH.
Qed.

Lemma searchOf_with_query (qs : string) :
  occurs "#" qs = false ->
  Client.searchOf ("/api/resource-library" ++ String "?" qs) = qs.
Proof.
  intros H. unfold Client.searchOf.
  rewrite (cut_absent "#").
  - cbn [fst]. now rewrite cut_at.
  - rewrite occurs_append. cbn [occurs]. now rewrite H.
Qed.

(** X22: the URL built for the resource library carries exactly the
    parameters that were set, [cat] for a category and [q] for a non-empty
    text, and a URL parser reads them back unchanged whatever characters
    the text holds; with neither, the URL is the bare path, and so it is
    for the page when the search text is blank. *)
Theorem X22_resource_library_url
    (cat : option Client.Category) (q : option string) :
  Client.searchParamsOf (Client.resourceLibraryUrl cat q)
  = Some (Client.libraryParams cat q)
  /\ (Client.libraryParams cat q = [] ->
      Client.resourceLibraryUrl cat q = "/api/resource-library")
  /\ forall text,
       blank text = true ->
       Client.resourcesPageUrl cat text = Client.resourceLibraryUrl cat None.
Proof.
  split; [|split].
  - unfold Client.resourceLibraryUrl, Client.searchParamsOf.
    destruct (Client.libraryParams cat q) as [|[k v] rest] eqn:E;
      [reflexivity|].
    assert (Hne : isEmptyString (Client.serialize ((k, v) :: rest)) = false).
    { cbn [Client.serialize]. now destruct (Client.formEncode k). }
    rewrite Hne. rewrite searchOf_with_query.
    + apply decodePairs_serialize.
    + apply (allChars_occurs _ _ _ (serialize_safe _)). reflexivity.
  - intros E. unfold Client.resourceLibraryUrl. now rewrite E.
  - intros text Hb. unfold Client.resourcesPageUrl, Client.resourceLibraryUrl,
      Client.libraryParams.
    now rewrite (trim_blank text Hb).
Qed.
